(** * Print.h: the debug-printing helpers of namespace [gluten]

    A shallow embedding of [cpp/core/utils/Print.h].  The header defines the
    same family of function templates twice, once under
    [#ifdef GLUTEN_PRINT_DEBUG] (every function writes to [std::cout]) and
    once in the [#else] branch (every function has an empty body).

    - [std::cout] is the text written so far, a [string]; a statement is a
      function from that text to an [outcome].
    - An [outcome] is either the text after the statement has returned or
      [Undefined], which stands for the undefined behaviour of C++ (reading
      through a past-the-end iterator, advancing an iterator beyond the end
      of its container, indexing a vector out of bounds, calling a method
      through a null handle).
    - [operator<<] on a template argument is the class [Printable];
      the methods [ToString()] and [toString()] are the classes
      [HasToString] and [Has2String]. *)

From Equations Require Import Equations.
From Stdlib Require Import ZArith List Arith Lia Bool.
From Stdlib Require Import Strings.String Strings.Ascii Numbers.DecimalString.
From coqutil Require Import Word.Interface Word.Properties Word.Naive Word.Bitwidth32.
Import ListNotations.

Local Open Scope string_scope.

(** ** The output sink and statements *)

Definition sink := string.

Inductive outcome : Type :=
| Done (s : sink)
| Undefined.

Definition stmt := sink -> outcome.

Definition skip : stmt := fun s => Done s.

Definition seq (p q : stmt) : stmt :=
  fun s => match p s with
           | Done s' => q s'
           | Undefined => Undefined
           end.

Declare Scope stmt_scope.
Delimit Scope stmt_scope with stmt.
Bind Scope stmt_scope with stmt.
Notation "p ;; q" := (seq p q) (at level 61, right associativity) : stmt_scope.
Local Open Scope stmt_scope.

(** The characters the header writes through escapes. *)
Definition LF : string := String (ascii_of_nat 10) EmptyString.
Definition TAB : string := String (ascii_of_nat 9) EmptyString.

(** [std::cout << x] for text [x] that is already rendered. *)
Definition write (x : string) : stmt := fun s => Done (s ++ x).

(** [std::cout << std::endl]: a newline (the flush does not change the
    text). *)
Definition endl : stmt := write LF.

(** Undefined behaviour as a statement. *)
Definition undefined : stmt := fun _ => Undefined.

(** ** Renderable values *)

(** [operator<<(std::ostream&, const T&)]. *)
Class Printable (T : Type) := show : T -> string.

(** The method [ToString()]. *)
Class HasToString (T : Type) := ToString : T -> string.

(** The method [toString()]. *)
Class Has2String (T : Type) := toString : T -> string.

(** [std::cout << t] for a template argument [t]. *)
Definition put {T} `{Printable T} (t : T) : stmt := write (show t).

#[export] Instance Printable_string : Printable string := fun x => x.

(** [size_t] and [unsigned int] print in decimal. *)
#[export] Instance Printable_nat : Printable nat :=
  fun n => NilZero.string_of_uint (Nat.to_uint n).

(** [int] and [unsigned int] values held as [Z] print in decimal with a
    leading minus sign when negative. *)
#[export] Instance Printable_Z : Printable Z :=
  fun z => NilZero.string_of_int (Z.to_int z).

(** An owning handle ([std::shared_ptr<R>], [std::unique_ptr<R>], [R*]):
    [None] is the null handle. *)
Definition handle (R : Type) := option R.

(** ** Iterators

    An iterator of a sequence container is the container together with a
    position in it; position [length base] is the past-the-end iterator. *)

Record iterator (T : Type) := mk_iterator { base : list T; pos : nat }.
Arguments mk_iterator {T}.
Arguments base {T}.
Arguments pos {T}.

Definition begin_ {T} (c : list T) : iterator T := mk_iterator c 0.
Definition end_ {T} (c : list T) : iterator T := mk_iterator c (List.length c).

(** [*it]; undefined at the past-the-end position and beyond. *)
Definition deref {T} (it : iterator T) : option T := nth_error (base it) (pos it).

(** [++it]; undefined when [it] is already past the end. *)
Definition incr {T} (it : iterator T) : option (iterator T) :=
  if (pos it <? List.length (base it))%nat then Some (mk_iterator (base it) (S (pos it)))
  else None.

(** [a != b] on two iterators of one container. *)
Definition neq_it {T} (a b : iterator T) : bool := negb (pos a =? pos b)%nat.

(** What is left to traverse from an iterator to the end of its container:
    the measure on which the iterator loops terminate. *)
Definition remaining {T} (it : iterator T) : nat := List.length (base it) - pos it.

(** ** [unsigned int]

    A 32-bit machine word; [++index] wraps around. *)

Definition uint : Type := Naive.word32.
#[local] Existing Instance Naive.word32_ok.

Definition uint_incr (i : uint) : uint := word.add i (word.of_Z 1).

(** Number of increments that take [i] to [e], wrap-around included: the
    measure on which the loop of [PrintVectorRange] terminates. *)
Definition uint_dist (i e : uint) : nat := Z.to_nat (word.unsigned (word.sub e i)).

(** [v[index]] on a [std::vector]; undefined out of bounds. *)
Definition at_index {T} (v : list T) (index : uint) : option T :=
  nth_error v (Z.to_nat (word.unsigned index)).

(** [std::string::empty()]. *)
Definition empty (x : string) : bool :=
  match x with
  | EmptyString => true
  | String _ _ => false
  end.

(** [x->ToString()] and [x->toString()] through a handle. *)
Definition arrow_ToString {R} `{HasToString R} (x : handle R) : stmt :=
  match x with
  | Some r => write (ToString r)
  | None => undefined
  end.

Definition arrow_toString {R} `{Has2String R} (x : handle R) : stmt :=
  match x with
  | Some r => write (toString r)
  | None => undefined
  end.

(** ** The functions under [#ifdef GLUTEN_PRINT_DEBUG] *)

Module Enabled.

(** [Print(const T& t)]. *)
Definition Print {T} `{Printable T} (t : T) : stmt := put t.

(** [PrintLF(const T& t)]. *)
Definition PrintLF {T} `{Printable T} (t : T) : stmt := put t ;; endl.

(** The overload [Print(const A& a, const B& b)]. *)
Definition Print2 {A B} `{Printable A} `{Printable B} (a : A) (b : B) : stmt :=
  put a ;; put b.

(** The overload [PrintLF(const A& a, const B& b)]. *)
Definition PrintLF2 {A B} `{Printable A} `{Printable B} (a : A) (b : B) : stmt :=
  put a ;; put b ;; endl.

Definition PrintSplit {A B} `{Printable A} `{Printable B}
    (a : A) (b : B) (split : string) : stmt :=
  put a ;; write split ;; put b.

Definition PrintSplitLF {A B} `{Printable A} `{Printable B}
    (a : A) (b : B) (split : string) : stmt :=
  put a ;; write split ;; put b ;; endl.

Definition PrintEQ {A B} `{Printable A} `{Printable B} (a : A) (b : B) : stmt :=
  put a ;; write " = " ;; put b.

Definition PrintEQLF {A B} `{Printable A} `{Printable B} (a : A) (b : B) : stmt :=
  put a ;; write " = " ;; put b ;; endl.

Definition PrintVS {A B} `{Printable A} `{Printable B} (a : A) (b : B) : stmt :=
  put a ;; write " vs " ;; put b.

Definition PrintVSLF {A B} `{Printable A} `{Printable B} (a : A) (b : B) : stmt :=
  put a ;; write " vs " ;; put b ;; endl.

Definition PrintElement {E} `{Printable E} (e : E) (first : bool) : stmt :=
  (if negb first then write ", " else skip) ;;
  put e.

(** [for (; begin != end; ++begin) { std::cout << *begin << " "; }] *)
Equations PrintRange_loop {T} `{Printable T} (begin end' : iterator T) : stmt
  by wf (remaining begin) lt :=
  PrintRange_loop begin end' with neq_it begin end' := {
    | false => skip
    | true with deref begin := {
      | None => undefined
      | Some x with Equations.Prop.Logic.inspect (incr begin) := {
        | exist _ None _ => put x ;; write " " ;; undefined
        | exist _ (Some begin') Hincr =>
            put x ;; write " " ;; PrintRange_loop begin' end' } } }.
Next Obligation.
  unfold incr in Hincr. unfold remaining.
  destruct (Nat.ltb_spec (pos begin) (List.length (base begin))) as [Hlt|Hge];
    [injection Hincr as <-; simpl; lia | discriminate].
Qed.

Definition PrintRange {T} `{Printable T} (begin end' : iterator T) : stmt :=
  write "{ " ;;
  PrintRange_loop begin end' ;;
  write "}" ;; endl.

Definition PrintContainer {T} `{Printable T} (c : list T) (containerName : string) : stmt :=
  (if negb (empty containerName) then write containerName ;; write " " else skip) ;;
  write "size = " ;; put (List.length c) ;; write " " ;;
  PrintRange (begin_ c) (end_ c).

Definition PrintAB2String {A B} `{Printable A} `{Has2String B} (a : A) (b : B) : stmt :=
  put a ;; write " = " ;; write (toString b) ;; endl.

Definition Print2String {T} `{Has2String T} (t : T) (prefix : string) : stmt :=
  (if negb (empty prefix) then write prefix ;; write ": " else skip) ;;
  write (toString t) ;; endl.

(** [for (; begin != end; ++begin) { std::cout << begin->ToString() << " "; ++begin; }]:
    the iterator is advanced in the body and again by the loop header. *)
Equations PrintRangeToString_loop {T} `{HasToString T} (begin end' : iterator T) : stmt
  by wf (remaining begin) lt :=
  PrintRangeToString_loop begin end' with neq_it begin end' := {
    | false => skip
    | true with deref begin := {
      | None => undefined
      | Some x with Equations.Prop.Logic.inspect (incr begin) := {
        | exist _ None _ => write (ToString x) ;; write " " ;; undefined
        | exist _ (Some begin1) Hbody with Equations.Prop.Logic.inspect (incr begin1) := {
          | exist _ None _ => write (ToString x) ;; write " " ;; undefined
          | exist _ (Some begin2) Hheader =>
              write (ToString x) ;; write " " ;; PrintRangeToString_loop begin2 end' } } } }.
Next Obligation.
  unfold incr in Hbody, Hheader. unfold remaining.
  destruct (Nat.ltb_spec (pos begin) (List.length (base begin))) as [Hlt|Hge];
    [injection Hbody as <- | discriminate].
  destruct (Nat.ltb_spec (pos (mk_iterator (base begin) (S (pos begin))))
              (List.length (base (mk_iterator (base begin) (S (pos begin))))))
    as [Hlt1|Hge1]; [injection Hheader as <-; simpl in *; lia | discriminate].
Qed.

Definition PrintRangeToString {T} `{HasToString T} (begin end' : iterator T) : stmt :=
  write "{ " ;;
  PrintRangeToString_loop begin end' ;;
  write "}".

(** The same loop with [begin->toString()]. *)
Equations PrintRange2String_loop {T} `{Has2String T} (begin end' : iterator T) : stmt
  by wf (remaining begin) lt :=
  PrintRange2String_loop begin end' with neq_it begin end' := {
    | false => skip
    | true with deref begin := {
      | None => undefined
      | Some x with Equations.Prop.Logic.inspect (incr begin) := {
        | exist _ None _ => write (toString x) ;; write " " ;; undefined
        | exist _ (Some begin1) Hbody with Equations.Prop.Logic.inspect (incr begin1) := {
          | exist _ None _ => write (toString x) ;; write " " ;; undefined
          | exist _ (Some begin2) Hheader =>
              write (toString x) ;; write " " ;; PrintRange2String_loop begin2 end' } } } }.
Next Obligation.
  unfold incr in Hbody, Hheader. unfold remaining.
  destruct (Nat.ltb_spec (pos begin) (List.length (base begin))) as [Hlt|Hge];
    [injection Hbody as <- | discriminate].
  destruct (Nat.ltb_spec (pos (mk_iterator (base begin) (S (pos begin))))
              (List.length (base (mk_iterator (base begin) (S (pos begin))))))
    as [Hlt1|Hge1]; [injection Hheader as <-; simpl in *; lia | discriminate].
Qed.

Definition PrintRange2String {T} `{Has2String T} (begin end' : iterator T) : stmt :=
  write "{ " ;;
  PrintRange2String_loop begin end' ;;
  write "}".

Definition PrintContainerToString {T} `{HasToString T}
    (c : list T) (containerName : string) : stmt :=
  (if negb (empty containerName) then write containerName ;; write " " else skip) ;;
  write "size = " ;; put (List.length c) ;; endl ;;
  PrintRangeToString (begin_ c) (end_ c).

Definition PrintContainer2String {T} `{Has2String T}
    (c : list T) (containerName : string) : stmt :=
  (if negb (empty containerName) then write containerName ;; write " " else skip) ;;
  write "size = " ;; put (List.length c) ;; endl ;;
  PrintRange2String (begin_ c) (end_ c).

(** [for (auto& x : c) { std::cout << " " << x->ToString(); }] *)
Fixpoint PrintVectorToString_loop {R} `{HasToString R} (c : list (handle R)) : stmt :=
  match c with
  | [] => skip
  | x :: c' => write " " ;; arrow_ToString x ;; PrintVectorToString_loop c'
  end.

Definition PrintVectorToString {R} `{HasToString R}
    (c : list (handle R)) (containerName : string) : stmt :=
  write containerName ;; write " = {" ;;
  PrintVectorToString_loop c ;;
  write " }" ;; endl.

(** [for (auto& x : c) { std::cout << " " << x->toString(); }] *)
Fixpoint PrintVector2String_loop {R} `{Has2String R} (c : list (handle R)) : stmt :=
  match c with
  | [] => skip
  | x :: c' => write " " ;; arrow_toString x ;; PrintVector2String_loop c'
  end.

Definition PrintVector2String {R} `{Has2String R}
    (c : list (handle R)) (containerName : string) : stmt :=
  write containerName ;; write " = {" ;;
  PrintVector2String_loop c ;;
  write " }" ;; endl.

(** [for (size_t i = 0; i < v.size(); ++i) { Print("\t"); PrintSplitLF(i, v[i], " -> "); }]
    from the current value of [i]. *)
Equations PrintVectorMapping_loop {T} `{Printable T} (v : list T) (i : nat) : stmt
  by wf (List.length v - i) lt :=
  PrintVectorMapping_loop v i with Equations.Prop.Logic.inspect (i <? List.length v)%nat := {
    | exist _ false _ => skip
    | exist _ true Hlt with nth_error v i := {
      | None => undefined
      | Some x =>
          Print TAB ;; PrintSplitLF i x " -> " ;; PrintVectorMapping_loop v (S i) } }.
Next Obligation. apply Nat.ltb_lt in Hlt. lia. Qed.

Definition PrintVectorMapping {T} `{Printable T} (v : list T) (vectorName : string) : stmt :=
  write vectorName ;; write (LF ++ "{" ++ LF) ;;
  PrintVectorMapping_loop v 0 ;;
  write "}" ;; endl.

(** [for (; index != end; ++index) { PrintElement(v[index], index == begin); }]
    from the current value of [index]. *)
Equations PrintVectorRange_loop {T} `{Printable T}
    (v : list T) (begin end' index : uint) : stmt
  by wf (uint_dist index end') lt :=
  PrintVectorRange_loop v begin end' index
    with Equations.Prop.Logic.inspect (word.eqb index end') := {
    | exist _ true _ => skip
    | exist _ false Hne with at_index v index := {
      | None => undefined
      | Some e =>
          PrintElement e (word.eqb index begin) ;;
          PrintVectorRange_loop v begin end' (uint_incr index) } }.
Next Obligation.
  unfold uint_dist, uint_incr.
  apply Z.eqb_neq in Hne.
  change (word.unsigned index <> word.unsigned end') in Hne.
  pose proof (word.unsigned_range index) as Hi.
  pose proof (word.unsigned_range end') as He.
  rewrite !word.unsigned_sub, word.unsigned_add, word.unsigned_of_Z_1.
  unfold word.wrap in *.
  rewrite Zminus_mod_idemp_r.
  set (d := (word.unsigned end' - word.unsigned index)%Z).
  pose proof (Z.mod_pos_bound d (2 ^ 32)) as Hd.
  assert (Hpos : (0 < d mod 2 ^ 32)%Z).
  { destruct (Z.eq_dec (d mod 2 ^ 32) 0) as [E|E]; [|lia].
    exfalso. apply Hne. apply Z.mod_divide in E; [|lia].
    destruct E as [q E]. subst d. nia. }
  replace (word.unsigned end' - (word.unsigned index + 1))%Z with (d - 1)%Z
    by (subst d; lia).
  rewrite <- Zminus_mod_idemp_l.
  rewrite (Z.mod_small (d mod 2 ^ 32 - 1)) by lia. lia.
Qed.

Definition PrintVectorRange {T} `{Printable T} (v : list T) (begin end' : uint) : stmt :=
  write "{" ;;
  PrintVectorRange_loop v begin end' begin ;;
  write "}" ;; endl.

(** The macros.  [text] is the spelling [#a] of the macro argument and
    [func] the value of [__func__] where the macro is expanded. *)

Definition PRINT {T} `{Printable T} (text : string) (a : T) : stmt :=
  PrintSplit text a ": ".

Definition PRINTLF {T} `{Printable T} (text : string) (a : T) : stmt :=
  PrintSplitLF text a ": ".

Definition PRINT_FUNCTION_NAME (func : string) : stmt :=
  write func ;; endl.

Definition PRINT_FUNCTION_SPLIT_LINE (func : string) : stmt :=
  write "===== " ;; write func ;; write " ======" ;; endl.

Definition PRINT_CONTAINER {T} `{Printable T} (text : string) (c : list T) : stmt :=
  PrintContainer c text.

Definition PRINT_CONTAINER_TO_STRING {T} `{HasToString T}
    (text : string) (v : list T) : stmt :=
  PrintContainerToString v text.

Definition PRINT_CONTAINER_2_STRING {T} `{Has2String T}
    (text : string) (v : list T) : stmt :=
  PrintContainer2String v text.

Definition PRINT_VECTOR_TO_STRING {R} `{HasToString R}
    (text : string) (v : list (handle R)) : stmt :=
  PrintVectorToString v text.

Definition PRINT_VECTOR_2_STRING {R} `{Has2String R}
    (text : string) (v : list (handle R)) : stmt :=
  PrintVector2String v text.

Definition PRINT_VECTOR_MAPPING {T} `{Printable T} (text : string) (v : list T) : stmt :=
  PrintVectorMapping v text.

End Enabled.

(** ** The functions of the [#else] branch

    Every body is empty and the macros expand to nothing.  The branch
    declares twenty-two functions against the twenty-three of the enabled
    branch: after [PrintRangeToString] comes [PrintContainerToString], and
    there is no [PrintRange2String].  The parameter lists of the functions
    it does declare are those of the enabled branch. *)

Module Disabled.

Definition Print {T} `{Printable T} (t : T) : stmt := skip.
Definition PrintLF {T} `{Printable T} (t : T) : stmt := skip.
Definition Print2 {A B} `{Printable A} `{Printable B} (a : A) (b : B) : stmt := skip.
Definition PrintLF2 {A B} `{Printable A} `{Printable B} (a : A) (b : B) : stmt := skip.
Definition PrintSplit {A B} `{Printable A} `{Printable B}
    (a : A) (b : B) (split : string) : stmt :=
  skip.
Definition PrintSplitLF {A B} `{Printable A} `{Printable B}
    (a : A) (b : B) (split : string) : stmt :=
  skip.
Definition PrintEQ {A B} `{Printable A} `{Printable B} (a : A) (b : B) : stmt := skip.
Definition PrintEQLF {A B} `{Printable A} `{Printable B} (a : A) (b : B) : stmt := skip.
Definition PrintVS {A B} `{Printable A} `{Printable B} (a : A) (b : B) : stmt := skip.
Definition PrintVSLF {A B} `{Printable A} `{Printable B} (a : A) (b : B) : stmt := skip.
Definition PrintElement {E} `{Printable E} (e : E) (first : bool) : stmt := skip.
Definition PrintRange {T} `{Printable T}
    (begin : iterator T) (end' : iterator T) : stmt :=
  skip.
Definition PrintContainer {T} `{Printable T}
    (c : list T) (containerName : string) : stmt :=
  skip.
Definition PrintAB2String {A B} `{Printable A} `{Has2String B}
    (a : A) (b : B) : stmt :=
  skip.
Definition Print2String {T} `{Has2String T} (t : T) (prefix : string) : stmt := skip.
Definition PrintRangeToString {T} `{HasToString T}
    (begin : iterator T) (end' : iterator T) : stmt :=
  skip.
Definition PrintContainerToString {T} `{HasToString T}
    (c : list T) (containerName : string) : stmt :=
  skip.
Definition PrintContainer2String {T} `{Has2String T}
    (c : list T) (containerName : string) : stmt :=
  skip.
Definition PrintVectorToString {R} `{HasToString R}
    (c : list (handle R)) (containerName : string) : stmt :=
  skip.
Definition PrintVector2String {R} `{Has2String R}
    (c : list (handle R)) (containerName : string) : stmt :=
  skip.
Definition PrintVectorMapping {T} `{Printable T}
    (v : list T) (vectorName : string) : stmt :=
  skip.
Definition PrintVectorRange {T} `{Printable T}
    (v : list T) (begin : uint) (end' : uint) : stmt :=
  skip.
Definition PRINT {T} `{Printable T} (text : string) (a : T) : stmt := skip.
Definition PRINTLF {T} `{Printable T} (text : string) (a : T) : stmt := skip.
Definition PRINT_FUNCTION_NAME (func : string) : stmt := skip.
Definition PRINT_FUNCTION_SPLIT_LINE (func : string) : stmt := skip.
Definition PRINT_CONTAINER {T} `{Printable T}
    (text : string) (c : list T) : stmt :=
  skip.
Definition PRINT_CONTAINER_TO_STRING {T} `{HasToString T}
    (text : string) (v : list T) : stmt :=
  skip.
Definition PRINT_CONTAINER_2_STRING {T} `{Has2String T}
    (text : string) (v : list T) : stmt :=
  skip.
Definition PRINT_VECTOR_TO_STRING {R} `{HasToString R}
    (text : string) (v : list (handle R)) : stmt :=
  skip.
Definition PRINT_VECTOR_2_STRING {R} `{Has2String R}
    (text : string) (v : list (handle R)) : stmt :=
  skip.
Definition PRINT_VECTOR_MAPPING {T} `{Printable T}
    (text : string) (v : list T) : stmt :=
  skip.

End Disabled.

(** ** The facility as a whole

    [Facility] lists the call signature of every function and macro of the
    header.  [enabled] and [disabled] fill it from the two branches of the
    [#ifdef].  A field of plain function type is a function that both
    branches declare with that signature; [f_PrintRange2String] is
    optional, because the [#else] branch does not declare that function. *)

Definition PrintRange2String_sig : Type :=
  forall T, Has2String T -> iterator T -> iterator T -> stmt.

Record Facility : Type := mk_Facility {
  f_Print : forall T, Printable T -> T -> stmt;
  f_PrintLF : forall T, Printable T -> T -> stmt;
  f_Print2 : forall A B, Printable A -> Printable B -> A -> B -> stmt;
  f_PrintLF2 : forall A B, Printable A -> Printable B -> A -> B -> stmt;
  f_PrintSplit : forall A B, Printable A -> Printable B -> A -> B -> string -> stmt;
  f_PrintSplitLF : forall A B, Printable A -> Printable B -> A -> B -> string -> stmt;
  f_PrintEQ : forall A B, Printable A -> Printable B -> A -> B -> stmt;
  f_PrintEQLF : forall A B, Printable A -> Printable B -> A -> B -> stmt;
  f_PrintVS : forall A B, Printable A -> Printable B -> A -> B -> stmt;
  f_PrintVSLF : forall A B, Printable A -> Printable B -> A -> B -> stmt;
  f_PrintElement : forall E, Printable E -> E -> bool -> stmt;
  f_PrintRange : forall T, Printable T -> iterator T -> iterator T -> stmt;
  f_PrintContainer : forall T, Printable T -> list T -> string -> stmt;
  f_PrintAB2String : forall A B, Printable A -> Has2String B -> A -> B -> stmt;
  f_Print2String : forall T, Has2String T -> T -> string -> stmt;
  f_PrintRangeToString : forall T, HasToString T -> iterator T -> iterator T -> stmt;
  f_PrintRange2String : option PrintRange2String_sig;
  f_PrintContainerToString : forall T, HasToString T -> list T -> string -> stmt;
  f_PrintContainer2String : forall T, Has2String T -> list T -> string -> stmt;
  f_PrintVectorToString : forall R, HasToString R -> list (handle R) -> string -> stmt;
  f_PrintVector2String : forall R, Has2String R -> list (handle R) -> string -> stmt;
  f_PrintVectorMapping : forall T, Printable T -> list T -> string -> stmt;
  f_PrintVectorRange : forall T, Printable T -> list T -> uint -> uint -> stmt;
  f_PRINT : forall T, Printable T -> string -> T -> stmt;
  f_PRINTLF : forall T, Printable T -> string -> T -> stmt;
  f_PRINT_FUNCTION_NAME : string -> stmt;
  f_PRINT_FUNCTION_SPLIT_LINE : string -> stmt;
  f_PRINT_CONTAINER : forall T, Printable T -> string -> list T -> stmt;
  f_PRINT_CONTAINER_TO_STRING : forall T, HasToString T -> string -> list T -> stmt;
  f_PRINT_CONTAINER_2_STRING : forall T, Has2String T -> string -> list T -> stmt;
  f_PRINT_VECTOR_TO_STRING : forall R, HasToString R -> string -> list (handle R) -> stmt;
  f_PRINT_VECTOR_2_STRING : forall R, Has2String R -> string -> list (handle R) -> stmt;
  f_PRINT_VECTOR_MAPPING : forall T, Printable T -> string -> list T -> stmt
}.

Definition enabled : Facility := {|
  f_Print := @Enabled.Print;
  f_PrintLF := @Enabled.PrintLF;
  f_Print2 := @Enabled.Print2;
  f_PrintLF2 := @Enabled.PrintLF2;
  f_PrintSplit := @Enabled.PrintSplit;
  f_PrintSplitLF := @Enabled.PrintSplitLF;
  f_PrintEQ := @Enabled.PrintEQ;
  f_PrintEQLF := @Enabled.PrintEQLF;
  f_PrintVS := @Enabled.PrintVS;
  f_PrintVSLF := @Enabled.PrintVSLF;
  f_PrintElement := @Enabled.PrintElement;
  f_PrintRange := @Enabled.PrintRange;
  f_PrintContainer := @Enabled.PrintContainer;
  f_PrintAB2String := @Enabled.PrintAB2String;
  f_Print2String := @Enabled.Print2String;
  f_PrintRangeToString := @Enabled.PrintRangeToString;
  f_PrintRange2String := Some (@Enabled.PrintRange2String);
  f_PrintContainerToString := @Enabled.PrintContainerToString;
  f_PrintContainer2String := @Enabled.PrintContainer2String;
  f_PrintVectorToString := @Enabled.PrintVectorToString;
  f_PrintVector2String := @Enabled.PrintVector2String;
  f_PrintVectorMapping := @Enabled.PrintVectorMapping;
  f_PrintVectorRange := @Enabled.PrintVectorRange;
  f_PRINT := @Enabled.PRINT;
  f_PRINTLF := @Enabled.PRINTLF;
  f_PRINT_FUNCTION_NAME := Enabled.PRINT_FUNCTION_NAME;
  f_PRINT_FUNCTION_SPLIT_LINE := Enabled.PRINT_FUNCTION_SPLIT_LINE;
  f_PRINT_CONTAINER := @Enabled.PRINT_CONTAINER;
  f_PRINT_CONTAINER_TO_STRING := @Enabled.PRINT_CONTAINER_TO_STRING;
  f_PRINT_CONTAINER_2_STRING := @Enabled.PRINT_CONTAINER_2_STRING;
  f_PRINT_VECTOR_TO_STRING := @Enabled.PRINT_VECTOR_TO_STRING;
  f_PRINT_VECTOR_2_STRING := @Enabled.PRINT_VECTOR_2_STRING;
  f_PRINT_VECTOR_MAPPING := @Enabled.PRINT_VECTOR_MAPPING
|}.

Definition disabled : Facility := {|
  f_Print := @Disabled.Print;
  f_PrintLF := @Disabled.PrintLF;
  f_Print2 := @Disabled.Print2;
  f_PrintLF2 := @Disabled.PrintLF2;
  f_PrintSplit := @Disabled.PrintSplit;
  f_PrintSplitLF := @Disabled.PrintSplitLF;
  f_PrintEQ := @Disabled.PrintEQ;
  f_PrintEQLF := @Disabled.PrintEQLF;
  f_PrintVS := @Disabled.PrintVS;
  f_PrintVSLF := @Disabled.PrintVSLF;
  f_PrintElement := @Disabled.PrintElement;
  f_PrintRange := @Disabled.PrintRange;
  f_PrintContainer := @Disabled.PrintContainer;
  f_PrintAB2String := @Disabled.PrintAB2String;
  f_Print2String := @Disabled.Print2String;
  f_PrintRangeToString := @Disabled.PrintRangeToString;
  f_PrintRange2String := None;
  f_PrintContainerToString := @Disabled.PrintContainerToString;
  f_PrintContainer2String := @Disabled.PrintContainer2String;
  f_PrintVectorToString := @Disabled.PrintVectorToString;
  f_PrintVector2String := @Disabled.PrintVector2String;
  f_PrintVectorMapping := @Disabled.PrintVectorMapping;
  f_PrintVectorRange := @Disabled.PrintVectorRange;
  f_PRINT := @Disabled.PRINT;
  f_PRINTLF := @Disabled.PRINTLF;
  f_PRINT_FUNCTION_NAME := Disabled.PRINT_FUNCTION_NAME;
  f_PRINT_FUNCTION_SPLIT_LINE := Disabled.PRINT_FUNCTION_SPLIT_LINE;
  f_PRINT_CONTAINER := @Disabled.PRINT_CONTAINER;
  f_PRINT_CONTAINER_TO_STRING := @Disabled.PRINT_CONTAINER_TO_STRING;
  f_PRINT_CONTAINER_2_STRING := @Disabled.PRINT_CONTAINER_2_STRING;
  f_PRINT_VECTOR_TO_STRING := @Disabled.PRINT_VECTOR_TO_STRING;
  f_PRINT_VECTOR_2_STRING := @Disabled.PRINT_VECTOR_2_STRING;
  f_PRINT_VECTOR_MAPPING := @Disabled.PRINT_VECTOR_MAPPING
|}.

(** The build-time switch. *)
Definition facility (GLUTEN_PRINT_DEBUG : bool) : Facility :=
  if GLUTEN_PRINT_DEBUG then enabled else disabled.

(** A call that compiles against the declarations [F]: the function or
    macro called and its arguments.  An argument that the declaration gives
    a default value is optional ([None] when the call leaves it out).  A
    call of [PrintRange2String] needs the declaration it resolves to: [f],
    with the evidence that [F] declares it. *)
Section Calls.

Context {F : Facility}.

Inductive call : Type :=
| C_Print {T} `{Printable T} (t : T)
| C_PrintLF {T} `{Printable T} (t : T)
| C_Print2 {A B} `{Printable A} `{Printable B} (a : A) (b : B)
| C_PrintLF2 {A B} `{Printable A} `{Printable B} (a : A) (b : B)
| C_PrintSplit {A B} `{Printable A} `{Printable B} (a : A) (b : B) (split : option string)
| C_PrintSplitLF {A B} `{Printable A} `{Printable B} (a : A) (b : B) (split : option string)
| C_PrintEQ {A B} `{Printable A} `{Printable B} (a : A) (b : B)
| C_PrintEQLF {A B} `{Printable A} `{Printable B} (a : A) (b : B)
| C_PrintVS {A B} `{Printable A} `{Printable B} (a : A) (b : B)
| C_PrintVSLF {A B} `{Printable A} `{Printable B} (a : A) (b : B)
| C_PrintElement {E} `{Printable E} (e : E) (first : option bool)
| C_PrintRange {T} `{Printable T} (begin : iterator T) (end' : iterator T)
| C_PrintContainer {T} `{Printable T} (c : list T) (containerName : option string)
| C_PrintAB2String {A B} `{Printable A} `{Has2String B} (a : A) (b : B)
| C_Print2String {T} `{Has2String T} (t : T) (prefix : option string)
| C_PrintRangeToString {T} `{HasToString T} (begin : iterator T) (end' : iterator T)
| C_PrintRange2String (f : PrintRange2String_sig) (declared : f_PrintRange2String F = Some f)
    {T} `{Has2String T} (begin : iterator T) (end' : iterator T)
| C_PrintContainerToString {T} `{HasToString T} (c : list T) (containerName : option string)
| C_PrintContainer2String {T} `{Has2String T} (c : list T) (containerName : option string)
| C_PrintVectorToString {R} `{HasToString R}
    (c : list (handle R)) (containerName : option string)
| C_PrintVector2String {R} `{Has2String R}
    (c : list (handle R)) (containerName : option string)
| C_PrintVectorMapping {T} `{Printable T} (v : list T) (vectorName : option string)
| C_PrintVectorRange {T} `{Printable T} (v : list T) (begin : uint) (end' : uint)
| C_PRINT {T} `{Printable T} (text : string) (a : T)
| C_PRINTLF {T} `{Printable T} (text : string) (a : T)
| C_PRINT_FUNCTION_NAME (func : string)
| C_PRINT_FUNCTION_SPLIT_LINE (func : string)
| C_PRINT_CONTAINER {T} `{Printable T} (text : string) (c : list T)
| C_PRINT_CONTAINER_TO_STRING {T} `{HasToString T} (text : string) (v : list T)
| C_PRINT_CONTAINER_2_STRING {T} `{Has2String T} (text : string) (v : list T)
| C_PRINT_VECTOR_TO_STRING {R} `{HasToString R} (text : string) (v : list (handle R))
| C_PRINT_VECTOR_2_STRING {R} `{Has2String R} (text : string) (v : list (handle R))
| C_PRINT_VECTOR_MAPPING {T} `{Printable T} (text : string) (v : list T).

(** Whether a call is a call of [PrintRange2String]. *)
Definition calls_PrintRange2String (k : call) : bool :=
  match k with
  | C_PrintRange2String _ _ _ _ => true
  | _ => false
  end.

End Calls.

Arguments call : clear implicits.

Definition default_to {X} (d : X) (o : option X) : X :=
  match o with
  | Some x => x
  | None => d
  end.

(** Performing a call under a setting of the switch; the default values are
    those of the declarations, the same in both branches. *)
Definition exec (F : Facility) (k : call F) : stmt :=
  match k with
  | C_Print t => f_Print F _ _ t
  | C_PrintLF t => f_PrintLF F _ _ t
  | C_Print2 a b => f_Print2 F _ _ _ _ a b
  | C_PrintLF2 a b => f_PrintLF2 F _ _ _ _ a b
  | C_PrintSplit a b split => f_PrintSplit F _ _ _ _ a b (default_to ": " split)
  | C_PrintSplitLF a b split =>
      f_PrintSplitLF F _ _ _ _ a b (default_to ": " split)
  | C_PrintEQ a b => f_PrintEQ F _ _ _ _ a b
  | C_PrintEQLF a b => f_PrintEQLF F _ _ _ _ a b
  | C_PrintVS a b => f_PrintVS F _ _ _ _ a b
  | C_PrintVSLF a b => f_PrintVSLF F _ _ _ _ a b
  | C_PrintElement e first => f_PrintElement F _ _ e (default_to false first)
  | C_PrintRange begin end' => f_PrintRange F _ _ begin end'
  | C_PrintContainer c containerName =>
      f_PrintContainer F _ _ c (default_to "" containerName)
  | C_PrintAB2String a b => f_PrintAB2String F _ _ _ _ a b
  | C_Print2String t prefix => f_Print2String F _ _ t (default_to "" prefix)
  | C_PrintRangeToString begin end' => f_PrintRangeToString F _ _ begin end'
  | C_PrintRange2String f _ begin end' => f _ _ begin end'
  | C_PrintContainerToString c containerName =>
      f_PrintContainerToString F _ _ c (default_to "" containerName)
  | C_PrintContainer2String c containerName =>
      f_PrintContainer2String F _ _ c (default_to "" containerName)
  | C_PrintVectorToString c containerName =>
      f_PrintVectorToString F _ _ c (default_to "" containerName)
  | C_PrintVector2String c containerName =>
      f_PrintVector2String F _ _ c (default_to "" containerName)
  | C_PrintVectorMapping v vectorName =>
      f_PrintVectorMapping F _ _ v (default_to "" vectorName)
  | C_PrintVectorRange v begin end' => f_PrintVectorRange F _ _ v begin end'
  | C_PRINT text a => f_PRINT F _ _ text a
  | C_PRINTLF text a => f_PRINTLF F _ _ text a
  | C_PRINT_FUNCTION_NAME func => f_PRINT_FUNCTION_NAME F func
  | C_PRINT_FUNCTION_SPLIT_LINE func => f_PRINT_FUNCTION_SPLIT_LINE F func
  | C_PRINT_CONTAINER text c => f_PRINT_CONTAINER F _ _ text c
  | C_PRINT_CONTAINER_TO_STRING text v => f_PRINT_CONTAINER_TO_STRING F _ _ text v
  | C_PRINT_CONTAINER_2_STRING text v => f_PRINT_CONTAINER_2_STRING F _ _ text v
  | C_PRINT_VECTOR_TO_STRING text v => f_PRINT_VECTOR_TO_STRING F _ _ text v
  | C_PRINT_VECTOR_2_STRING text v => f_PRINT_VECTOR_2_STRING F _ _ text v
  | C_PRINT_VECTOR_MAPPING text v => f_PRINT_VECTOR_MAPPING F _ _ text v
  end.

(** ** Sample values for the worked examples *)

(** An object with both rendering methods, such as a schema field. *)
Record Field : Type := mk_Field { field_name : string; field_type : string }.

#[export] Instance Field_ToString : HasToString Field :=
  fun f => field_name f ++ ": " ++ field_type f.

#[export] Instance Field_toString : Has2String Field :=
  fun f => field_name f ++ ":" ++ field_type f.

Definition sample_fields : list Field :=
  [mk_Field "id" "int64"; mk_Field "name" "string"; mk_Field "price" "double"].

(** ** What a statement writes *)

(** The text a statement writes when it runs on the empty sink; [None] when
    its behaviour is undefined. *)
Definition output (p : stmt) : option string :=
  match p "" with
  | Done o => Some o
  | Undefined => None
  end.

(** The sink [s] after text has been added at its end. *)
Definition appended (s : sink) (o : option string) : outcome :=
  match o with
  | Some x => Done (s ++ x)
  | None => Undefined
  end.

(** A statement only adds at the end of the sink, and what it adds does
    not depend on what the sink holds. *)
Definition append_only (p : stmt) : Prop :=
  forall s, p s = appended s (output p).

(** The part [\[from, to)] of a sequence. *)
Definition slice {T} (v : list T) (from to : nat) : list T :=
  firstn (to - from) (skipn from v).

(** The elements at positions 0, 2, 4, ... *)
Fixpoint every_other {T} (l : list T) : list T :=
  match l with
  | [] => []
  | x :: rest => x :: match rest with
                      | [] => []
                      | _ :: rest' => every_other rest'
                      end
  end.

(** Concatenation of rendered pieces. *)
Fixpoint concat_str (l : list string) : string :=
  match l with
  | [] => ""
  | x :: l' => x ++ concat_str l'
  end.

(** Elements rendered one after the other, each followed by a space. *)
Definition rendered {T} (render : T -> string) (l : list T) : string :=
  concat_str (map (fun x => render x ++ " ") l).

(** Elements separated by [", "]: the first one bare, each later one
    behind the separator. *)
Definition comma_separated (l : list string) : string :=
  match l with
  | [] => ""
  | x :: l' => x ++ concat_str (map (fun y => ", " ++ y) l')
  end.

(** The text of a label that is written only when it is not empty, with
    the separator that follows it. *)
Definition label_prefix (name sep : string) : string :=
  if empty name then "" else name ++ sep.

(** Elements rendered one after the other, each behind a space. *)
Definition spaced {T} (render : T -> string) (l : list T) : string :=
  concat_str (map (fun x => " " ++ render x) l).

(** The lines [\t i -> x] for the elements of [l], numbered from [i]. *)
Fixpoint mapping_lines {T} `{Printable T} (i : nat) (l : list T) : string :=
  match l with
  | [] => ""
  | x :: l' => TAB ++ show i ++ " -> " ++ show x ++ LF ++ mapping_lines (S i) l'
  end.

(** * Properties *)

(** ** Strings *)

Lemma append_assoc (a b c : string) : (a ++ b) ++ c = a ++ (b ++ c).
Proof. induction a as [|ch a IH]; simpl; [reflexivity | now rewrite IH]. Qed.

Lemma append_nil_r (a : string) : a ++ "" = a.
Proof. induction a as [|ch a IH]; simpl; [reflexivity | now rewrite IH]. Qed.

(** ** Append-only statements *)

Lemma append_only_intro (p : stmt) (o : option string) :
  (forall s, p s = appended s o) -> append_only p.
Proof.
  intros Hp s. unfold output. rewrite (Hp ""), (Hp s).
  destruct o; reflexivity.
Qed.

Lemma append_only_skip : append_only skip.
Proof. apply (append_only_intro _ (Some "")). intros s. simpl. now rewrite append_nil_r. Qed.

Lemma append_only_write x : append_only (write x).
Proof. now apply (append_only_intro _ (Some x)). Qed.

Lemma append_only_undefined : append_only undefined.
Proof. now apply (append_only_intro _ None). Qed.

Lemma append_only_seq (p q : stmt) :
  append_only p -> append_only q -> append_only (p ;; q).
Proof.
  intros Hp Hq.
  apply (append_only_intro _
           match output p, output q with
           | Some x, Some y => Some (x ++ y)
           | _, _ => None
           end).
  intros s. unfold seq. rewrite (Hp s).
  destruct (output p) as [x|]; simpl; [|reflexivity].
  rewrite (Hq (s ++ x)). destruct (output q) as [y|]; simpl; [|reflexivity].
  now rewrite append_assoc.
Qed.

Lemma append_only_if (b : bool) (p q : stmt) :
  append_only p -> append_only q -> append_only (if b then p else q).
Proof. now destruct b. Qed.

Lemma append_only_put {T} `{Printable T} (t : T) : append_only (put t).
Proof. apply append_only_write. Qed.

Lemma append_only_endl : append_only endl.
Proof. apply append_only_write. Qed.

Lemma append_only_arrow_ToString {R} `{HasToString R} (x : handle R) :
  append_only (arrow_ToString x).
Proof. destruct x; [apply append_only_write | apply append_only_undefined]. Qed.

Lemma append_only_arrow_toString {R} `{Has2String R} (x : handle R) :
  append_only (arrow_toString x).
Proof. destruct x; [apply append_only_write | apply append_only_undefined]. Qed.

Create HintDb append_only.
#[export] Hint Resolve append_only_skip append_only_write append_only_undefined
  append_only_seq append_only_if append_only_put append_only_endl
  append_only_arrow_ToString append_only_arrow_toString : append_only.

(** The loops: every clause is a sequence of append-only statements that
    ends in [skip], in [undefined] or in the next round of the loop. *)
Ltac append_only_loop :=
  repeat (apply append_only_seq; [solve [auto with append_only] |]);
  first [ solve [auto with append_only]
        | match goal with IH : sink -> append_only _ |- _ => exact (IH "") end ].

Lemma append_only_PrintRange_loop {T} `{Printable T} (begin end' : iterator T) :
  append_only (Enabled.PrintRange_loop begin end').
Proof. funelim (Enabled.PrintRange_loop begin end'); append_only_loop. Qed.

Lemma append_only_PrintRangeToString_loop {T} `{HasToString T} (begin end' : iterator T) :
  append_only (Enabled.PrintRangeToString_loop begin end').
Proof. funelim (Enabled.PrintRangeToString_loop begin end'); append_only_loop. Qed.

Lemma append_only_PrintRange2String_loop {T} `{Has2String T} (begin end' : iterator T) :
  append_only (Enabled.PrintRange2String_loop begin end').
Proof. funelim (Enabled.PrintRange2String_loop begin end'); append_only_loop. Qed.

Lemma append_only_PrintVectorToString_loop {R} `{HasToString R} (c : list (handle R)) :
  append_only (Enabled.PrintVectorToString_loop c).
Proof. induction c as [|x c IH]; simpl; auto with append_only. Qed.

Lemma append_only_PrintVector2String_loop {R} `{Has2String R} (c : list (handle R)) :
  append_only (Enabled.PrintVector2String_loop c).
Proof. induction c as [|x c IH]; simpl; auto with append_only. Qed.

Lemma append_only_PrintElement {E} `{Printable E} (e : E) (first : bool) :
  append_only (Enabled.PrintElement e first).
Proof. unfold Enabled.PrintElement. auto with append_only. Qed.

Lemma append_only_PrintSplitLF {A B} `{Printable A} `{Printable B} (a : A) (b : B) split :
  append_only (Enabled.PrintSplitLF a b split).
Proof. unfold Enabled.PrintSplitLF. auto 6 with append_only. Qed.

#[export] Hint Resolve append_only_PrintElement append_only_PrintSplitLF : append_only.

Lemma append_only_PrintVectorMapping_loop {T} `{Printable T} (v : list T) (i : nat) :
  append_only (Enabled.PrintVectorMapping_loop v i).
Proof.
  funelim (Enabled.PrintVectorMapping_loop v i); unfold Enabled.Print; append_only_loop.
Qed.

Lemma append_only_PrintVectorRange_loop {T} `{Printable T} (v : list T) (b e i : uint) :
  append_only (Enabled.PrintVectorRange_loop v b e i).
Proof.
  funelim (Enabled.PrintVectorRange_loop v b e i); append_only_loop.
Qed.

#[export] Hint Resolve append_only_PrintRange_loop append_only_PrintRangeToString_loop
  append_only_PrintRange2String_loop append_only_PrintVectorToString_loop
  append_only_PrintVector2String_loop append_only_PrintVectorMapping_loop
  append_only_PrintVectorRange_loop : append_only.

Lemma append_only_exec_enabled (k : call enabled) : append_only (exec enabled k).
Proof.
  destruct k;
    try match goal with
        | D : f_PrintRange2String _ = Some _ |- _ => simpl in D; injection D as <-
        end;
    simpl;
    unfold Enabled.Print, Enabled.PrintLF, Enabled.Print2, Enabled.PrintLF2,
      Enabled.PRINT, Enabled.PRINTLF, Enabled.PrintSplit, Enabled.PrintSplitLF,
      Enabled.PrintEQ, Enabled.PrintEQLF, Enabled.PrintVS, Enabled.PrintVSLF,
      Enabled.PrintElement, Enabled.PRINT_CONTAINER, Enabled.PrintContainer,
      Enabled.PrintRange, Enabled.PrintAB2String, Enabled.Print2String,
      Enabled.PRINT_CONTAINER_TO_STRING, Enabled.PRINT_CONTAINER_2_STRING,
      Enabled.PrintContainerToString, Enabled.PrintContainer2String,
      Enabled.PrintRangeToString, Enabled.PrintRange2String,
      Enabled.PRINT_VECTOR_TO_STRING, Enabled.PRINT_VECTOR_2_STRING,
      Enabled.PrintVectorToString, Enabled.PrintVector2String,
      Enabled.PRINT_VECTOR_MAPPING, Enabled.PrintVectorMapping,
      Enabled.PrintVectorRange, Enabled.PRINT_FUNCTION_NAME,
      Enabled.PRINT_FUNCTION_SPLIT_LINE;
    auto 12 with append_only.
Qed.

Lemma append_only_exec_disabled (k : call disabled) : append_only (exec disabled k).
Proof. destruct k; try discriminate; apply append_only_skip. Qed.

(** A statement may read the sink it is given: one that writes the sink a
    second time is not append-only. *)
Lemma sink_doubling_not_append_only : ~ append_only (fun s => Done (s ++ s)).
Proof. intros Hp. specialize (Hp "a"). discriminate Hp. Qed.

(** A call that returns from one sink returns from every sink and adds the
    same text. *)
Lemma append_only_returns (p : stmt) (s0 s1 : sink) :
  append_only p -> p s0 = Done s1 ->
  exists o, s1 = s0 ++ o /\ output p = Some o /\ forall s, p s = Done (s ++ o).
Proof.
  intros Hp Hs. pose proof (Hp s0) as H0. rewrite Hs in H0.
  destruct (output p) as [o|] eqn:Ho; simpl in H0; [|discriminate].
  injection H0 as ->. exists o. split; [reflexivity | split; [reflexivity |]].
  intros s. rewrite (Hp s), Ho. reflexivity.
Qed.

Lemma append_only_exec (debug : bool) (k : call (facility debug)) :
  append_only (exec (facility debug) k).
Proof.
  destruct debug; [apply append_only_exec_enabled | apply append_only_exec_disabled].
Qed.


(** ** One round of each loop *)

Ltac loop_clause :=
  repeat match goal with
         | H1 : ?a = Some _, H2 : ?a = Some _ |- _ =>
             rewrite H1 in H2; injection H2 as H2; subst
         | H1 : ?a = _, H2 : ?a = _ |- _ => rewrite H1 in H2; discriminate H2
         end;
  try reflexivity.

Lemma PrintRange_loop_stop {T} `{Printable T} (begin end' : iterator T) :
  neq_it begin end' = false -> Enabled.PrintRange_loop begin end' = skip.
Proof. intros Hn. funelim (Enabled.PrintRange_loop begin end'); loop_clause. Qed.

Lemma PrintRange_loop_step {T} `{Printable T} (begin end' begin1 : iterator T) (x : T) :
  neq_it begin end' = true -> deref begin = Some x -> incr begin = Some begin1 ->
  Enabled.PrintRange_loop begin end'
  = (put x ;; write " " ;; Enabled.PrintRange_loop begin1 end').
Proof. intros Hn Hd Hi. funelim (Enabled.PrintRange_loop begin end'); loop_clause. Qed.

Lemma PrintRangeToString_loop_stop {T} `{HasToString T} (begin end' : iterator T) :
  neq_it begin end' = false -> Enabled.PrintRangeToString_loop begin end' = skip.
Proof. intros Hn. funelim (Enabled.PrintRangeToString_loop begin end'); loop_clause. Qed.

Lemma PrintRangeToString_loop_off_end {T} `{HasToString T} (begin end' : iterator T) :
  neq_it begin end' = true -> deref begin = None ->
  Enabled.PrintRangeToString_loop begin end' = undefined.
Proof. intros Hn Hd. funelim (Enabled.PrintRangeToString_loop begin end'); loop_clause. Qed.

Lemma PrintRangeToString_loop_last {T} `{HasToString T}
    (begin end' begin1 : iterator T) (x : T) :
  neq_it begin end' = true -> deref begin = Some x ->
  incr begin = Some begin1 -> incr begin1 = None ->
  Enabled.PrintRangeToString_loop begin end'
  = (write (ToString x) ;; write " " ;; undefined).
Proof.
  intros Hn Hd Hi1 Hi2. funelim (Enabled.PrintRangeToString_loop begin end'); loop_clause.
Qed.

Lemma PrintRangeToString_loop_step {T} `{HasToString T}
    (begin end' begin1 begin2 : iterator T) (x : T) :
  neq_it begin end' = true -> deref begin = Some x ->
  incr begin = Some begin1 -> incr begin1 = Some begin2 ->
  Enabled.PrintRangeToString_loop begin end'
  = (write (ToString x) ;; write " " ;; Enabled.PrintRangeToString_loop begin2 end').
Proof.
  intros Hn Hd Hi1 Hi2. funelim (Enabled.PrintRangeToString_loop begin end'); loop_clause.
Qed.

Lemma PrintRangeToString_loop_stuck {T} `{HasToString T}
    (begin end' : iterator T) (x : T) :
  neq_it begin end' = true -> deref begin = Some x -> incr begin = None ->
  Enabled.PrintRangeToString_loop begin end'
  = (write (ToString x) ;; write " " ;; undefined).
Proof.
  intros Hn Hd Hi1. funelim (Enabled.PrintRangeToString_loop begin end'); loop_clause.
Qed.

(** The two rendered-range loops are one loop: they differ in the name of
    the method only. *)
Lemma PrintRange2String_loop_eq {T} (render : T -> string) (begin end' : iterator T) :
  @Enabled.PrintRange2String_loop T render begin end'
  = @Enabled.PrintRangeToString_loop T render begin end'.
Proof.
  funelim (@Enabled.PrintRange2String_loop T render begin end'); symmetry;
    match goal with Hr : Has2String T |- _ => rename Hr into render end.
  - now apply PrintRangeToString_loop_stop.
  - now apply PrintRangeToString_loop_off_end.
  - eapply (@PrintRangeToString_loop_stuck T render); eassumption.
  - rewrite (@PrintRangeToString_loop_step T render begin end' begin1 begin2 x)
      by assumption.
    match goal with IH : sink -> _ = _ |- _ => now rewrite <- (IH "") end.
  - eapply (@PrintRangeToString_loop_last T render); eassumption.
Qed.

Lemma PrintRange2String_eq {T} (render : T -> string) (begin end' : iterator T) :
  @Enabled.PrintRange2String T render begin end'
  = @Enabled.PrintRangeToString T render begin end'.
Proof.
  unfold Enabled.PrintRange2String, Enabled.PrintRangeToString.
  now rewrite PrintRange2String_loop_eq.
Qed.

(** ** Sequences *)

Lemma skipn_nth_error {T} (c : list T) (b : nat) (x : T) :
  nth_error c b = Some x -> skipn b c = x :: skipn (S b) c.
Proof.
  revert c. induction b as [|b IH]; intros [|y c]; simpl; try discriminate.
  - now intros [= ->].
  - intros Hx. now rewrite (IH c Hx).
Qed.

Lemma slice_empty {T} (c : list T) (b : nat) : slice c b b = [].
Proof. unfold slice. now rewrite Nat.sub_diag. Qed.

Lemma slice_cons {T} (c : list T) (b e : nat) (x : T) :
  nth_error c b = Some x -> b < e -> slice c b e = x :: slice c (S b) e.
Proof.
  intros Hx Hlt. unfold slice. rewrite (skipn_nth_error c b x Hx).
  replace (e - b) with (S (e - S b)) by lia. reflexivity.
Qed.

Lemma nth_error_in_range {T} (c : list T) (p : nat) :
  p < List.length c -> exists x, nth_error c p = Some x.
Proof.
  intros Hlt. destruct (nth_error c p) as [x|] eqn:Hx; [now exists x|].
  apply nth_error_None in Hx. lia.
Qed.

Lemma nth_error_slice {T} (c : list T) (b e j : nat) :
  e <= List.length c -> j < e - b -> nth_error (slice c b e) j = nth_error c (b + j).
Proof.
  intros He Hj. unfold slice.
  rewrite nth_error_firstn.
  destruct (Nat.ltb_spec j (e - b)) as [_|Hge]; [|lia].
  now rewrite nth_error_skipn.
Qed.

Lemma length_slice {T} (c : list T) (b e : nat) :
  b <= e <= List.length c -> List.length (slice c b e) = e - b.
Proof.
  intros Hbe. unfold slice. rewrite length_firstn, length_skipn. lia.
Qed.

Lemma every_other_pair {T} (x y : T) (l : list T) :
  every_other (x :: y :: l) = x :: every_other l.
Proof. reflexivity. Qed.

(** Induction on lists two elements at a time. *)
Lemma list_pair_ind {T} (P : list T -> Prop) :
  P [] -> (forall x, P [x]) -> (forall x y l, P l -> P (x :: y :: l)) ->
  forall l, P l.
Proof.
  intros H0 H1 H2.
  assert (Hboth : forall l, P l /\ forall x, P (x :: l)).
  { induction l as [|y l [IHl IHx]]; split; auto. }
  intros l. apply Hboth.
Qed.

Lemma every_other_spec {T} (l : list T) :
  List.length (every_other l) = Nat.div2 (S (List.length l))
  /\ forall i, i < Nat.div2 (S (List.length l)) ->
               nth_error (every_other l) i = nth_error l (2 * i).
Proof.
  induction l as [|x|x y l [Hlen Hnth]] using list_pair_ind.
  - split; [reflexivity | intros i Hi; simpl in Hi; lia].
  - split; [reflexivity | intros [|i] Hi; [reflexivity | simpl in Hi; lia]].
  - rewrite every_other_pair. split.
    + simpl List.length. rewrite Hlen. reflexivity.
    + intros [|i] Hi; [reflexivity|].
      replace (2 * S i) with (S (S (2 * i))) by lia.
      simpl nth_error. apply Hnth.
      change (S i < S (Nat.div2 (S (List.length l)))) in Hi. lia.
Qed.

(** ** The rendered-range loop on positions of one container *)

Section RenderedRange.

Context {T : Type} `{HasToString T}.

Lemma incr_inside (c : list T) (p : nat) :
  p < List.length c -> incr (mk_iterator c p) = Some (mk_iterator c (S p)).
Proof.
  intros Hlt. unfold incr. simpl.
  destruct (Nat.ltb_spec p (List.length c)); [reflexivity | lia].
Qed.

Lemma incr_outside (c : list T) (p : nat) :
  List.length c <= p -> incr (mk_iterator c p) = None.
Proof.
  intros Hge. unfold incr. simpl.
  destruct (Nat.ltb_spec p (List.length c)); [lia | reflexivity].
Qed.

Lemma neq_it_positions (c : list T) (p e : nat) :
  p <> e -> neq_it (mk_iterator c p) (mk_iterator c e) = true.
Proof. intros Hne. unfold neq_it. simpl. now apply negb_true_iff, Nat.eqb_neq. Qed.

(** One round from position [p]: the element at [p] is written and the
    next round starts at [p + 2]. *)
Lemma rendered_loop_round (c : list T) (p e : nat) (x : T) :
  p <> e -> nth_error c p = Some x -> S p < List.length c ->
  Enabled.PrintRangeToString_loop (mk_iterator c p) (mk_iterator c e)
  = (write (ToString x) ;; write " " ;;
     Enabled.PrintRangeToString_loop (mk_iterator c (S (S p))) (mk_iterator c e)).
Proof.
  intros Hne Hx Hlt.
  apply (PrintRangeToString_loop_step _ _ (mk_iterator c (S p))).
  - now apply neq_it_positions.
  - exact Hx.
  - apply incr_inside. lia.
  - now apply incr_inside.
Qed.

(** At the last element of the container the second increment leaves the
    container. *)
Lemma rendered_loop_last (c : list T) (p e : nat) (x : T) :
  p <> e -> nth_error c p = Some x -> S p = List.length c ->
  Enabled.PrintRangeToString_loop (mk_iterator c p) (mk_iterator c e)
  = (write (ToString x) ;; write " " ;; undefined).
Proof.
  intros Hne Hx Hlt.
  apply (PrintRangeToString_loop_last _ _ (mk_iterator c (S p))).
  - now apply neq_it_positions.
  - exact Hx.
  - apply incr_inside. lia.
  - apply incr_outside. lia.
Qed.

(** Once the iterator is beyond [end], the test [begin != end] holds for
    good and the loop runs off the container. *)
Lemma rendered_loop_beyond (n : nat) : forall (c : list T) (p e : nat) (s : sink),
  List.length c - p <= n -> e < p ->
  Enabled.PrintRangeToString_loop (mk_iterator c p) (mk_iterator c e) s = Undefined.
Proof.
  induction n as [|n IH]; intros c p e s Hn Hlt.
  - rewrite PrintRangeToString_loop_off_end; [reflexivity | |].
    + apply neq_it_positions. lia.
    + unfold deref. simpl. apply nth_error_None. lia.
  - destruct (nth_error c p) as [x|] eqn:Hx.
    + assert (p < List.length c) by (apply nth_error_Some; congruence).
      destruct (Nat.eq_dec (S p) (List.length c)) as [Hlast|Hin].
      * rewrite (rendered_loop_last c p e x); [reflexivity | lia | assumption | assumption].
      * rewrite (rendered_loop_round c p e x); [| lia | assumption | lia].
        unfold seq, write. apply IH; lia.
    + rewrite PrintRangeToString_loop_off_end; [reflexivity | |].
      * apply neq_it_positions. lia.
      * exact Hx.
Qed.

Lemma rendered_cons (x : T) (l : list T) :
  rendered ToString (x :: l) = ToString x ++ " " ++ rendered ToString l.
Proof. unfold rendered. simpl. now rewrite append_assoc. Qed.

(** A range of even length. *)
Lemma rendered_loop_even (k : nat) : forall (c : list T) (b : nat) (s : sink),
  b + 2 * k <= List.length c ->
  Enabled.PrintRangeToString_loop (mk_iterator c b) (mk_iterator c (b + 2 * k)) s
  = Done (s ++ rendered ToString (every_other (slice c b (b + 2 * k)))).
Proof.
  induction k as [|k IH]; intros c b s Hle.
  - rewrite Nat.mul_0_r, Nat.add_0_r, slice_empty.
    rewrite PrintRangeToString_loop_stop.
    + unfold skip. simpl. now rewrite append_nil_r.
    + unfold neq_it. simpl. now rewrite Nat.eqb_refl.
  - destruct (nth_error_in_range c b) as [x Hx]; [lia|].
    destruct (nth_error_in_range c (S b)) as [y Hy]; [lia|].
    rewrite (rendered_loop_round c b _ x); [| lia | assumption | lia].
    unfold seq, write.
    replace (b + 2 * S k) with (S (S b) + 2 * k) by lia.
    rewrite IH by lia.
    rewrite (slice_cons c b _ x), (slice_cons c (S b) _ y) by (assumption || lia).
    rewrite every_other_pair, rendered_cons.
    now rewrite !append_assoc.
Qed.

(** A range of odd length that ends inside the container: the loop comes to
    the position after [end] without having met [end]. *)
Lemma rendered_loop_odd_reach (k : nat) : forall (c : list T) (b : nat) (s : sink),
  b + 2 * k + 1 < List.length c ->
  Enabled.PrintRangeToString_loop (mk_iterator c b) (mk_iterator c (b + 2 * k + 1)) s
  = Enabled.PrintRangeToString_loop
      (mk_iterator c (S (b + 2 * k + 1))) (mk_iterator c (b + 2 * k + 1))
      (s ++ rendered ToString (every_other (slice c b (b + 2 * k + 1)))).
Proof.
  induction k as [|k IH]; intros c b s Hlt.
  - destruct (nth_error_in_range c b) as [x Hx]; [lia|].
    rewrite (rendered_loop_round c b _ x); [| lia | assumption | lia].
    unfold seq, write.
    rewrite (slice_cons c b _ x) by (assumption || lia).
    replace (b + 2 * 0 + 1) with (S b) by lia.
    rewrite slice_empty. simpl every_other. rewrite rendered_cons.
    unfold rendered. simpl. now rewrite !append_assoc.
  - destruct (nth_error_in_range c b) as [x Hx]; [lia|].
    destruct (nth_error_in_range c (S b)) as [y Hy]; [lia|].
    rewrite (rendered_loop_round c b _ x); [| lia | assumption | lia].
    unfold seq, write.
    replace (b + 2 * S k + 1) with (S (S b) + 2 * k + 1) by lia.
    rewrite IH by lia.
    rewrite (slice_cons c b _ x), (slice_cons c (S b) _ y) by (assumption || lia).
    rewrite every_other_pair, rendered_cons.
    now rewrite !append_assoc.
Qed.

(** A range of odd length never lets the loop return. *)
Lemma rendered_loop_odd (k : nat) : forall (c : list T) (b : nat) (s : sink),
  b + 2 * k + 1 <= List.length c ->
  Enabled.PrintRangeToString_loop (mk_iterator c b) (mk_iterator c (b + 2 * k + 1)) s
  = Undefined.
Proof.
  induction k as [|k IH]; intros c b s Hle.
  - destruct (nth_error_in_range c b) as [x Hx]; [lia|].
    destruct (Nat.eq_dec (S b) (List.length c)) as [Hlast|Hin].
    + rewrite (rendered_loop_last c b _ x); [reflexivity | lia | assumption | assumption].
    + rewrite (rendered_loop_round c b _ x); [| lia | assumption | lia].
      unfold seq, write. apply (rendered_loop_beyond (List.length c)); lia.
  - destruct (nth_error_in_range c b) as [x Hx]; [lia|].
    rewrite (rendered_loop_round c b _ x); [| lia | assumption | lia].
    unfold seq, write.
    replace (b + 2 * S k + 1) with (S (S b) + 2 * k + 1) by lia.
    apply IH. lia.
Qed.

End RenderedRange.

(** ** The loop of [PrintVectorRange] *)

Lemma PrintVectorRange_loop_stop {T} `{Printable T} (v : list T) (begin end' index : uint) :
  word.eqb index end' = true ->
  Enabled.PrintVectorRange_loop v begin end' index = skip.
Proof.
  intros He. funelim (Enabled.PrintVectorRange_loop v begin end' index); loop_clause.
Qed.

Lemma PrintVectorRange_loop_step {T} `{Printable T}
    (v : list T) (begin end' index : uint) (e : T) :
  word.eqb index end' = false -> at_index v index = Some e ->
  Enabled.PrintVectorRange_loop v begin end' index
  = (Enabled.PrintElement e (word.eqb index begin) ;;
     Enabled.PrintVectorRange_loop v begin end' (uint_incr index)).
Proof.
  intros He Hv. funelim (Enabled.PrintVectorRange_loop v begin end' index); loop_clause.
Qed.

Lemma PrintVectorRange_loop_out_of_bounds {T} `{Printable T}
    (v : list T) (begin end' index : uint) :
  word.eqb index end' = false -> at_index v index = None ->
  Enabled.PrintVectorRange_loop v begin end' index = undefined.
Proof.
  intros He Hv. funelim (Enabled.PrintVectorRange_loop v begin end' index); loop_clause.
Qed.

Lemma uint_eqb_false (i j : uint) :
  word.unsigned i <> word.unsigned j -> word.eqb i j = false.
Proof. intros Hne. rewrite word.unsigned_eqb. now apply Z.eqb_neq. Qed.

Lemma uint_eqb_true (i j : uint) :
  word.unsigned i = word.unsigned j -> word.eqb i j = true.
Proof. intros Heq. rewrite word.unsigned_eqb. now apply Z.eqb_eq. Qed.

Lemma uint_incr_below (i j : uint) :
  (word.unsigned i < word.unsigned j)%Z ->
  word.unsigned (uint_incr i) = (word.unsigned i + 1)%Z.
Proof.
  intros Hlt. unfold uint_incr.
  pose proof (word.unsigned_range i) as Hi. pose proof (word.unsigned_range j) as Hj.
  rewrite word.unsigned_add_nowrap; rewrite word.unsigned_of_Z_1; lia.
Qed.

Section VectorRange.

Context {T : Type} `{Printable T}.

Lemma PrintElement_first (e : T) (s : sink) :
  Enabled.PrintElement e true s = Done (s ++ show e).
Proof. reflexivity. Qed.

Lemma PrintElement_later (e : T) (s : sink) :
  Enabled.PrintElement e false s = Done (s ++ ", " ++ show e).
Proof. unfold Enabled.PrintElement, seq, put, write. simpl. now rewrite append_assoc. Qed.

(** The elements after the first one. *)
Lemma PrintVectorRange_loop_rest (n : nat) :
  forall (v : list T) (from to index : uint) (s : sink),
  (word.unsigned from < word.unsigned index)%Z ->
  (word.unsigned index + Z.of_nat n = word.unsigned to)%Z ->
  (word.unsigned to <= Z.of_nat (List.length v))%Z ->
  Enabled.PrintVectorRange_loop v from to index s
  = Done (s ++ concat_str
                 (map (fun y => ", " ++ show y)
                      (slice v (Z.to_nat (word.unsigned index))
                               (Z.to_nat (word.unsigned to))))).
Proof.
  induction n as [|n IH]; intros v from to index s Hfrom Hn Hto.
  - rewrite PrintVectorRange_loop_stop by (apply uint_eqb_true; lia).
    replace (word.unsigned to) with (word.unsigned index) by lia.
    rewrite slice_empty. unfold skip. simpl. now rewrite append_nil_r.
  - pose proof (word.unsigned_range index) as Hi.
    destruct (nth_error_in_range v (Z.to_nat (word.unsigned index))) as [e He]; [lia|].
    rewrite (PrintVectorRange_loop_step v from to index e);
      [| apply uint_eqb_false; lia | exact He].
    rewrite (uint_eqb_false index from) by lia.
    unfold seq. rewrite PrintElement_later.
    assert (Hnext : word.unsigned (uint_incr index) = (word.unsigned index + 1)%Z)
      by (apply (uint_incr_below index to); lia).
    rewrite IH by lia.
    rewrite (slice_cons v (Z.to_nat (word.unsigned index)) _ e) by (assumption || lia).
    rewrite Hnext.
    replace (Z.to_nat (word.unsigned index + 1)) with (S (Z.to_nat (word.unsigned index)))
      by lia.
    simpl. now rewrite !append_assoc.
Qed.

Lemma PrintVectorRange_loop_all (v : list T) (from to : uint) (s : sink) :
  (word.unsigned from <= word.unsigned to)%Z ->
  (word.unsigned to <= Z.of_nat (List.length v))%Z ->
  Enabled.PrintVectorRange_loop v from to from s
  = Done (s ++ comma_separated
                 (map show (slice v (Z.to_nat (word.unsigned from))
                                    (Z.to_nat (word.unsigned to))))).
Proof.
  intros Hle Hto.
  destruct (Z.eq_dec (word.unsigned from) (word.unsigned to)) as [Heq|Hne].
  - rewrite PrintVectorRange_loop_stop by now apply uint_eqb_true.
    rewrite Heq, slice_empty. unfold skip. simpl. now rewrite append_nil_r.
  - pose proof (word.unsigned_range from) as Hi.
    destruct (nth_error_in_range v (Z.to_nat (word.unsigned from))) as [e He]; [lia|].
    rewrite (PrintVectorRange_loop_step v from to from e);
      [| now apply uint_eqb_false | exact He].
    rewrite (uint_eqb_true from from) by reflexivity.
    unfold seq. rewrite PrintElement_first.
    assert (Hnext : word.unsigned (uint_incr from) = (word.unsigned from + 1)%Z)
      by (apply (uint_incr_below from to); lia).
    rewrite (PrintVectorRange_loop_rest
               (Z.to_nat (word.unsigned to - word.unsigned from - 1))) by lia.
    rewrite (slice_cons v (Z.to_nat (word.unsigned from)) _ e) by (assumption || lia).
    rewrite Hnext.
    replace (Z.to_nat (word.unsigned from + 1)) with (S (Z.to_nat (word.unsigned from)))
      by lia.
    simpl. rewrite map_map. now rewrite !append_assoc.
Qed.

End VectorRange.

(** ** The loop of [PrintRange]

    The plain range printer advances once per round and writes every
    element of the range. *)

Section PlainRange.

Context {T : Type} `{Printable T}.

Lemma PrintRange_loop_all (n : nat) : forall (c : list T) (b : nat) (s : sink),
  b + n <= List.length c ->
  Enabled.PrintRange_loop (mk_iterator c b) (mk_iterator c (b + n)) s
  = Done (s ++ rendered show (slice c b (b + n))).
Proof.
  induction n as [|n IH]; intros c b s Hle.
  - rewrite Nat.add_0_r, slice_empty, PrintRange_loop_stop.
    + unfold skip, rendered. simpl. now rewrite append_nil_r.
    + unfold neq_it. simpl. now rewrite Nat.eqb_refl.
  - destruct (nth_error_in_range c b) as [x Hx]; [lia|].
    rewrite (PrintRange_loop_step _ _ (mk_iterator c (S b)) x);
      [| apply neq_it_positions; lia | exact Hx | apply incr_inside; lia].
    unfold seq, put, write.
    replace (b + S n) with (S b + n) by lia.
    rewrite IH by lia.
    rewrite (slice_cons c b _ x) by (assumption || lia).
    unfold rendered. simpl. now rewrite !append_assoc.
Qed.

Lemma PrintRange_whole (c : list T) (s : sink) :
  Enabled.PrintRange (begin_ c) (end_ c) s
  = Done (s ++ "{ " ++ rendered show c ++ "}" ++ LF).
Proof.
  unfold Enabled.PrintRange, seq, endl, write, begin_, end_.
  rewrite (PrintRange_loop_all (List.length c) c 0) by lia.
  unfold slice. simpl. rewrite Nat.sub_0_r, firstn_all.
  now rewrite !append_assoc.
Qed.

End PlainRange.

(** ** Worked examples *)

Example PrintRange_1_2_3 :
  Enabled.PrintRange (begin_ [1; 2; 3]%Z) (end_ [1; 2; 3]%Z) "" = Done ("{ 1 2 3 }" ++ LF).
Proof. reflexivity. Qed.

Example PrintContainer_empty_X :
  Enabled.PrintContainer (@nil Z) "X" "" = Done ("X size = 0 { }" ++ LF).
Proof. reflexivity. Qed.

Example PrintSplit_default :
  exec enabled (C_PrintSplit "rows" 42%Z None) "" = Done "rows: 42".
Proof. reflexivity. Qed.

Example PRINT_FUNCTION_SPLIT_LINE_main :
  Enabled.PRINT_FUNCTION_SPLIT_LINE "main" "" = Done ("===== main ======" ++ LF).
Proof. reflexivity. Qed.

Example PrintVectorRange_backwards :
  Enabled.PrintVectorRange [5; 6; 7; 8]%Z (word.of_Z 3) (word.of_Z 1) "" = Undefined.
Proof. reflexivity. Qed.

Example PrintVectorToString_null :
  Enabled.PrintVectorToString [Some (mk_Field "id" "int64"); None] "v" "log: " = Undefined.
Proof. reflexivity. Qed.

(** * The specification, claim by claim *)

(** C1.  With [GLUTEN_PRINT_DEBUG] off, every call that compiles returns
    with the sink exactly as it found it and writes the empty text.  The
    signatures are those of the enabled mode for every function and macro
    but one: the [#else] branch declares no [PrintRange2String], so no call
    of the disabled mode is a call of that function, while every such call
    compiles in the enabled mode. *)
Theorem C1_disabled_mode_writes_nothing :
  (forall (k : call (facility false)) (s : sink),
      exec (facility false) k s = Done s
      /\ output (exec (facility false) k) = Some "")
  /\ f_PrintRange2String (facility false) = None
  /\ (forall k : call (facility false), calls_PrintRange2String k = false)
  /\ (forall T (H : Has2String T) (begin end' : iterator T),
      exists k : call (facility true),
        calls_PrintRange2String k = true
        /\ exec (facility true) k = Enabled.PrintRange2String begin end').
Proof.
  split; [| split; [| split]].
  - intros k s. destruct k; try discriminate; split; reflexivity.
  - reflexivity.
  - intros k. destruct k; try discriminate; reflexivity.
  - intros T H begin end'.
    exists (@C_PrintRange2String (facility true) (@Enabled.PrintRange2String) eq_refl
              T H begin end').
    split; reflexivity.
Qed.

(** C7.  [PrintEQ(a, b)] adds the text of [a], then [" = "], then the text
    of [b], and nothing after it; [PrintEQLF(a, b)] adds the same text and
    then one newline character. *)
Theorem C7_PrintEQ_and_PrintEQLF {A B} `{Printable A} `{Printable B}
    (a : A) (b : B) (s : sink) :
  Enabled.PrintEQ a b s = Done (s ++ show a ++ " = " ++ show b)
  /\ Enabled.PrintEQLF a b s = Done (s ++ (show a ++ " = " ++ show b) ++ LF)
  /\ String.length LF = 1.
Proof.
  unfold Enabled.PrintEQ, Enabled.PrintEQLF, seq, put, endl, write.
  repeat split; now rewrite !append_assoc.
Qed.







(** C3.  For [from <= to <= v.size()], [PrintVectorRange(v, from, to)] adds
    ["{"], the elements [v[from]], ..., [v[to-1]] with [", "] before each
    one but the first, then ["}"] and a newline. *)
Theorem C3_PrintVectorRange_output {T} `{Printable T}
    (v : list T) (from to : uint) (s : sink) :
  (word.unsigned from <= word.unsigned to)%Z ->
  (word.unsigned to <= Z.of_nat (List.length v))%Z ->
  Enabled.PrintVectorRange v from to s
  = Done (s ++ "{"
            ++ comma_separated
                 (map show (slice v (Z.to_nat (word.unsigned from))
                                    (Z.to_nat (word.unsigned to))))
            ++ "}" ++ LF).
Proof.
  intros Hle Hto. unfold Enabled.PrintVectorRange, seq, endl, write.
  rewrite PrintVectorRange_loop_all by assumption.
  now rewrite !append_assoc.
Qed.

(** [PrintVectorRange] on the vector 5, 6, 7, 8 from 1 to 3. *)
Lemma C3_PrintVectorRange_5678 :
  (word.unsigned (word.of_Z 1 : uint) <= word.unsigned (word.of_Z 3 : uint))%Z
  /\ (word.unsigned (word.of_Z 3 : uint) <= Z.of_nat (List.length [5; 6; 7; 8]%Z))%Z
  /\ Enabled.PrintVectorRange [5; 6; 7; 8]%Z (word.of_Z 1) (word.of_Z 3) ""
     = Done ("{6, 7}" ++ LF).
Proof.
  assert (H13 : (word.unsigned (word.of_Z 1 : uint) <= word.unsigned (word.of_Z 3 : uint))%Z)
    by (vm_compute; discriminate).
  assert (H34 : (word.unsigned (word.of_Z 3 : uint)
                 <= Z.of_nat (List.length [5; 6; 7; 8]%Z))%Z)
    by (vm_compute; discriminate).
  split; [exact H13 | split; [exact H34 |]].
  exact (C3_PrintVectorRange_output [5; 6; 7; 8]%Z (word.of_Z 1) (word.of_Z 3) "" H13 H34).
Defined.

(** C9.  The rendered-range printers move the iterator twice in every round
    of the loop.  On a range of even length [2 * k] they return after
    writing the [k] elements at the even positions 0, 2, ..., [2 * k - 2] of
    the range.  On a range of odd length the iterator steps over [end]
    (when [end] is inside the container the loop goes on from the position
    after it), the test [begin != end] never fails, and the call does not
    return. *)
Theorem C9_rendered_range_advances_twice {T} `{HasToString T} `{Has2String T}
    (c : list T) (b k : nat) (s : sink) :
  (b + 2 * k <= List.length c ->
   let begin := mk_iterator c b in
   let end' := mk_iterator c (b + 2 * k) in
   let visited := every_other (slice c b (b + 2 * k)) in
   Enabled.PrintRangeToString begin end' s
   = Done (s ++ "{ " ++ rendered ToString visited ++ "}")
   /\ Enabled.PrintRange2String begin end' s
      = Done (s ++ "{ " ++ rendered toString visited ++ "}")
   /\ List.length visited = k
   /\ forall i, i < k -> nth_error visited i = nth_error c (b + 2 * i))
  /\ (b + 2 * k + 1 <= List.length c ->
      let begin := mk_iterator c b in
      let end' := mk_iterator c (b + 2 * k + 1) in
      let visited := every_other (slice c b (b + 2 * k + 1)) in
      Enabled.PrintRangeToString begin end' s = Undefined
      /\ Enabled.PrintRange2String begin end' s = Undefined
      /\ (b + 2 * k + 1 < List.length c ->
          Enabled.PrintRangeToString_loop begin end' s
          = Enabled.PrintRangeToString_loop
              (mk_iterator c (S (b + 2 * k + 1))) end'
              (s ++ rendered ToString visited)
          /\ Enabled.PrintRange2String_loop begin end' s
             = Enabled.PrintRange2String_loop
                 (mk_iterator c (S (b + 2 * k + 1))) end'
                 (s ++ rendered toString visited)))
  /\ (forall (p e : nat) (x : T),
      p <> e -> nth_error c p = Some x -> S p < List.length c ->
      Enabled.PrintRangeToString_loop (mk_iterator c p) (mk_iterator c e)
      = (write (ToString x) ;; write " " ;;
         Enabled.PrintRangeToString_loop (mk_iterator c (S (S p))) (mk_iterator c e))
      /\ Enabled.PrintRange2String_loop (mk_iterator c p) (mk_iterator c e)
         = (write (toString x) ;; write " " ;;
            Enabled.PrintRange2String_loop (mk_iterator c (S (S p))) (mk_iterator c e))).
Proof.
  split; [|split].
  - intros Hle begin end' visited.
    assert (Heven : forall render : T -> string,
               @Enabled.PrintRangeToString T render begin end' s
               = Done (s ++ "{ " ++ rendered render visited ++ "}")).
    { intros render. unfold Enabled.PrintRangeToString, seq, write.
      unfold begin, end'. rewrite (@rendered_loop_even T render k c b) by assumption.
      now rewrite !append_assoc. }
    split; [apply Heven|]. split; [rewrite PrintRange2String_eq; apply Heven|].
    destruct (every_other_spec (slice c b (b + 2 * k))) as [Hlen Hnth].
    rewrite length_slice in Hlen, Hnth by lia.
    replace (Nat.div2 (S (b + 2 * k - b))) with k in Hlen, Hnth.
    + split; [exact Hlen|]. intros i Hi. unfold visited.
      rewrite (Hnth i Hi). apply nth_error_slice; lia.
    + replace (b + 2 * k - b) with (2 * k) by lia.
      symmetry. apply Nat.div2_succ_double.
  - intros Hle begin end' visited.
    assert (Hodd : forall render : T -> string,
               @Enabled.PrintRangeToString T render begin end' s = Undefined).
    { intros render. unfold Enabled.PrintRangeToString, seq, write.
      unfold begin, end'. now rewrite (@rendered_loop_odd T render k c b). }
    split; [apply Hodd|]. split; [rewrite PrintRange2String_eq; apply Hodd|].
    intros Hlt. split.
    + apply (@rendered_loop_odd_reach T _ k c b s Hlt).
    + rewrite !PrintRange2String_loop_eq.
      apply (@rendered_loop_odd_reach T toString k c b s Hlt).
  - intros p e x Hne Hx Hlt. split.
    + now apply rendered_loop_round.
    + rewrite !PrintRange2String_loop_eq.
      now apply (@rendered_loop_round T toString).
Qed.

(** Three fields: the range of the first two, and the range of all three. *)
Lemma C9_two_of_three_fields :
  0 + 2 * 1 <= List.length sample_fields
  /\ Enabled.PrintRangeToString (mk_iterator sample_fields 0)
       (mk_iterator sample_fields 2) ""
     = Done "{ id: int64 }"
  /\ 0 + 2 * 1 + 1 <= List.length sample_fields
  /\ Enabled.PrintRangeToString (mk_iterator sample_fields 0)
       (mk_iterator sample_fields 3) ""
     = Undefined.
Proof.
  assert (H2 : 0 + 2 * 1 <= List.length sample_fields) by (simpl; lia).
  assert (H3 : 0 + 2 * 1 + 1 <= List.length sample_fields) by (simpl; lia).
  split; [exact H2 | split; [| split; [exact H3 |]]].
  - exact (proj1 (proj1 (C9_rendered_range_advances_twice sample_fields 0 1 "") H2)).
  - exact (proj1 (proj1 (proj2 (C9_rendered_range_advances_twice sample_fields 0 1 "")) H3)).
Defined.

(** C2.  The specification has the rendered-range printers write every
    element of the range, in order, each followed by a space.  On a range of two fields both rendered-range
    printers write the first field only, and on a range of one field they
    do not return: the iterator is advanced in the loop body as well as in
    the loop header. *)
Theorem C2_rendered_range_misses_elements :
  let c := [mk_Field "id" "int64"; mk_Field "name" "string"] in
  let specified := "{ " ++ rendered ToString c ++ "}" in
  specified = "{ id: int64 name: string }"
  /\ Enabled.PrintRangeToString (begin_ c) (end_ c) "" = Done "{ id: int64 }"
  /\ Enabled.PrintRangeToString (begin_ c) (end_ c) "" <> Done specified
  /\ Enabled.PrintRange2String (begin_ c) (end_ c) "" = Done "{ id:int64 }"
  /\ Enabled.PrintRange2String (begin_ c) (end_ c) ""
     <> Done ("{ " ++ rendered toString c ++ "}")
  /\ Enabled.PrintRangeToString (begin_ [mk_Field "id" "int64"])
       (end_ [mk_Field "id" "int64"]) "" = Undefined.
Proof.
  cbv zeta. repeat split; try reflexivity; intros Heq; discriminate Heq.
Qed.

(** C6, as the specification has it: on the empty range [PrintRange] would write
    ["{ }"] and a newline and [PrintRangeToString] would write ["{}"].  The
    second half fails. *)
Lemma C6_empty_rendered_range_is_not_bare_braces :
  ~ (Enabled.PrintRange (begin_ (@nil Z)) (end_ (@nil Z)) "" = Done ("{ }" ++ LF)
     /\ Enabled.PrintRangeToString (begin_ (@nil Field)) (end_ (@nil Field)) ""
        = Done "{}").
Proof. intros [_ Heq]. discriminate Heq. Qed.

(** C6, amended.  On an empty range ([begin == end]) [PrintRange] adds
    ["{ }"] and a newline; [PrintRangeToString] and [PrintRange2String] add
    ["{ }"], the opening ["{ "] with its space followed by ["}"], and no
    newline. *)
Theorem C6_empty_range {A} `{Printable A} {T} `{HasToString T} `{Has2String T}
    (begin end' : iterator A) (rbegin rend : iterator T) (s : sink) :
  neq_it begin end' = false -> neq_it rbegin rend = false ->
  Enabled.PrintRange begin end' s = Done (s ++ "{ }" ++ LF)
  /\ Enabled.PrintRangeToString rbegin rend s = Done (s ++ "{ }")
  /\ Enabled.PrintRange2String rbegin rend s = Done (s ++ "{ }").
Proof.
  intros Hempty Hrempty.
  unfold Enabled.PrintRange, Enabled.PrintRangeToString, Enabled.PrintRange2String.
  rewrite PrintRange2String_loop_eq.
  rewrite PrintRange_loop_stop by assumption.
  rewrite !PrintRangeToString_loop_stop by assumption.
  unfold seq, endl, write, skip. repeat split; now rewrite !append_assoc.
Qed.

Lemma C6_empty_range_of_fields :
  neq_it (begin_ (@nil Z)) (end_ (@nil Z)) = false
  /\ neq_it (begin_ (@nil Field)) (end_ (@nil Field)) = false
  /\ Enabled.PrintRange (begin_ (@nil Z)) (end_ (@nil Z)) "" = Done ("{ }" ++ LF)
  /\ Enabled.PrintRangeToString (begin_ (@nil Field)) (end_ (@nil Field)) ""
     = Done "{ }".
Proof.
  split; [reflexivity | split; [reflexivity |]].
  pose proof (C6_empty_range (begin_ (@nil Z)) (end_ (@nil Z))
                (begin_ (@nil Field)) (end_ (@nil Field)) ""
                eq_refl eq_refl) as [HR [HT _]].
  split; [exact HR | exact HT].
Defined.

(** C4.  [PrintVectorMapping] on the vector 10, 20 without a name: the
    specification has the output start at the opening brace, the function starts it
    with the newline that ends the line of the name. *)
Theorem C4_PrintVectorMapping_10_20 :
  let specified :=
    "{" ++ LF ++ TAB ++ "0 -> 10" ++ LF ++ TAB ++ "1 -> 20" ++ LF ++ "}" ++ LF in
  Enabled.PrintVectorMapping [10; 20]%Z (default_to "" None) "" = Done (LF ++ specified)
  /\ exec (facility true) (C_PrintVectorMapping [10; 20]%Z None) "" = Done (LF ++ specified)
  /\ Done (LF ++ specified) <> Done specified.
Proof.
  cbv zeta. repeat split; try reflexivity. intros Heq. discriminate Heq.
Qed.

(** C5.  With the empty label, [PrintContainer], [PrintContainerToString],
    [PrintContainer2String] and [Print2String] write nothing for the label;
    [PrintVectorToString] and [PrintVector2String] still write [" = "] and
    [PrintVectorMapping] still writes the newline of the label line. *)
Theorem C5_empty_label :
  let f := mk_Field "id" "int64" in
  Enabled.PrintContainer [7; 8]%Z "" "" = Done ("size = 2 { 7 8 }" ++ LF)
  /\ Enabled.PrintContainerToString [f; f] "" "" = Done ("size = 2" ++ LF ++ "{ id: int64 }")
  /\ Enabled.PrintContainer2String [f; f] "" "" = Done ("size = 2" ++ LF ++ "{ id:int64 }")
  /\ Enabled.Print2String f "" "" = Done ("id:int64" ++ LF)
  /\ Enabled.PrintVectorToString [Some f] "" "" = Done (" = { id: int64 }" ++ LF)
  /\ Enabled.PrintVector2String [Some f] "" "" = Done (" = { id:int64 }" ++ LF)
  /\ Enabled.PrintVectorMapping [7]%Z "" ""
     = Done (LF ++ "{" ++ LF ++ TAB ++ "0 -> 7" ++ LF ++ "}" ++ LF).
Proof. cbv zeta. repeat split; reflexivity. Qed.

(** * Further properties of the enabled functions *)

(** ** Ranges whose end the loop cannot meet *)

Lemma PrintRange_loop_off_end {T} `{Printable T} (begin end' : iterator T) :
  neq_it begin end' = true -> deref begin = None ->
  Enabled.PrintRange_loop begin end' = undefined.
Proof. intros Hn Hd. funelim (Enabled.PrintRange_loop begin end'); loop_clause. Qed.

Lemma PrintRange_loop_never {T} `{Printable T} (n : nat) :
  forall (c : list T) (p e : nat) (s : sink),
  List.length c - p <= n -> p <> e -> e < p \/ List.length c < e ->
  Enabled.PrintRange_loop (mk_iterator c p) (mk_iterator c e) s = Undefined.
Proof.
  induction n as [|n IH]; intros c p e s Hn Hne Hend;
    destruct (nth_error c p) as [x|] eqn:Hx;
    try (rewrite PrintRange_loop_off_end;
         [reflexivity | now apply neq_it_positions | exact Hx]).
  - assert (p < List.length c) by (apply nth_error_Some; congruence). lia.
  - assert (p < List.length c) by (apply nth_error_Some; congruence).
    rewrite (PrintRange_loop_step _ _ (mk_iterator c (S p)) x);
      [| now apply neq_it_positions | exact Hx | now apply incr_inside].
    unfold seq, put, write. apply IH; lia.
Qed.

Lemma rendered_loop_never {T} `{HasToString T} (n : nat) :
  forall (c : list T) (p e : nat) (s : sink),
  List.length c - p <= n -> p <> e -> e < p \/ List.length c < e ->
  Enabled.PrintRangeToString_loop (mk_iterator c p) (mk_iterator c e) s = Undefined.
Proof.
  induction n as [|n IH]; intros c p e s Hn Hne Hend;
    destruct (nth_error c p) as [x|] eqn:Hx;
    try (rewrite PrintRangeToString_loop_off_end;
         [reflexivity | now apply neq_it_positions | exact Hx]).
  - assert (p < List.length c) by (apply nth_error_Some; congruence). lia.
  - assert (p < List.length c) by (apply nth_error_Some; congruence).
    destruct (Nat.eq_dec (S p) (List.length c)) as [Hlast|Hin].
    + rewrite (rendered_loop_last c p e x); [reflexivity | | |]; assumption.
    + rewrite (rendered_loop_round c p e x); [| assumption | assumption | lia].
      unfold seq, write. apply IH; lia.
Qed.

Lemma slice_whole {T} (c : list T) : slice c 0 (List.length c) = c.
Proof. unfold slice. simpl. rewrite Nat.sub_0_r. apply firstn_all. Qed.

(** X1.  On a range [\[b, e)] of a container, [PrintRange] returns and adds
    ["{ "], every element of the range in order, each followed by one space,
    then ["}"] and a newline. *)
Theorem X1_PrintRange_output {T} `{Printable T}
    (c : list T) (b e : nat) (s : sink) :
  b <= e <= List.length c ->
  Enabled.PrintRange (mk_iterator c b) (mk_iterator c e) s
  = Done (s ++ "{ " ++ rendered show (slice c b e) ++ "}" ++ LF).
Proof.
  intros Hbe. unfold Enabled.PrintRange, seq, endl, write.
  replace e with (b + (e - b)) by lia.
  rewrite (PrintRange_loop_all (e - b) c b) by lia.
  now rewrite !append_assoc.
Qed.

Lemma X1_PrintRange_middle_of_four :
  1 <= 3 <= List.length [5; 6; 7; 8]%Z
  /\ Enabled.PrintRange (mk_iterator [5; 6; 7; 8]%Z 1) (mk_iterator [5; 6; 7; 8]%Z 3) ""
     = Done ("{ 6 7 }" ++ LF).
Proof.
  assert (Hbe : 1 <= 3 <= List.length [5; 6; 7; 8]%Z) by (simpl; lia).
  split; [exact Hbe |].
  exact (X1_PrintRange_output [5; 6; 7; 8]%Z 1 3 "" Hbe).
Defined.

(** X2.  When [end] lies before [begin], or beyond the end of the container,
    [PrintRange] never meets it: the loop runs to the end of the container
    and reads through the past-the-end iterator, so the call has undefined
    behaviour and no output is returned. *)
Theorem X2_PrintRange_unreachable_end {T} `{Printable T}
    (c : list T) (b e : nat) (s : sink) :
  b <> e -> e < b \/ List.length c < e ->
  Enabled.PrintRange (mk_iterator c b) (mk_iterator c e) s = Undefined.
Proof.
  intros Hne Hend. unfold Enabled.PrintRange, seq, write.
  now rewrite (PrintRange_loop_never (List.length c)) by (assumption || lia).
Qed.

Lemma X2_PrintRange_reversed :
  3 <> 1 /\ (1 < 3 \/ List.length [5; 6; 7; 8]%Z < 1)
  /\ Enabled.PrintRange (mk_iterator [5; 6; 7; 8]%Z 3) (mk_iterator [5; 6; 7; 8]%Z 1) ""
     = Undefined.
Proof.
  assert (Hne : 3 <> 1) by lia.
  assert (Hend : 1 < 3 \/ List.length [5; 6; 7; 8]%Z < 1) by (left; lia).
  split; [exact Hne | split; [exact Hend |]].
  exact (X2_PrintRange_unreachable_end [5; 6; 7; 8]%Z 3 1 "" Hne Hend).
Defined.

(** X3.  [PrintContainer] always returns.  It adds the label and a space
    (nothing when the label is empty), ["size = "], the number of elements,
    a space, and then the whole container in the form of [PrintRange]; the
    empty container gives ["size = 0 { }"] and a newline. *)
Theorem X3_PrintContainer_output {T} `{Printable T}
    (c : list T) (containerName : string) (s : sink) :
  Enabled.PrintContainer c containerName s
  = Done (s ++ label_prefix containerName " " ++ "size = " ++ show (List.length c)
            ++ " { " ++ rendered show c ++ "}" ++ LF)
  /\ Enabled.PrintContainer (@nil T) "" s = Done (s ++ "size = 0 { }" ++ LF).
Proof.
  assert (Hall : forall (l : list T) name,
             Enabled.PrintContainer l name s
             = Done (s ++ label_prefix name " " ++ "size = " ++ show (List.length l)
                       ++ " { " ++ rendered show l ++ "}" ++ LF)).
  { intros l name. unfold Enabled.PrintContainer, label_prefix.
    destruct name as [|ch name]; simpl empty; simpl negb; cbv iota;
      unfold seq, put, write, skip; rewrite PrintRange_whole;
      now rewrite ?append_assoc, ?append_nil_r. }
  split; [apply Hall | now rewrite Hall].
Qed.

(** X4.  [PrintContainerToString] and [PrintContainer2String] hand the whole
    container to the rendered-range printer, so they return only on a
    container with an even number of elements: after the label and the
    [size = N] line they write the elements at positions 0, 2, 4, ... and
    skip the others.  On a container with an odd number of elements their
    behaviour is undefined. *)
Theorem X4_PrintContainerToString_by_parity {T} `{HasToString T} `{Has2String T}
    (c : list T) (containerName : string) (k : nat) (s : sink) :
  (List.length c = 2 * k ->
   Enabled.PrintContainerToString c containerName s
   = Done (s ++ label_prefix containerName " " ++ "size = " ++ show (List.length c) ++ LF
             ++ "{ " ++ rendered ToString (every_other c) ++ "}")
   /\ Enabled.PrintContainer2String c containerName s
      = Done (s ++ label_prefix containerName " " ++ "size = " ++ show (List.length c) ++ LF
                ++ "{ " ++ rendered toString (every_other c) ++ "}"))
  /\ (List.length c = 2 * k + 1 ->
      Enabled.PrintContainerToString c containerName s = Undefined
      /\ Enabled.PrintContainer2String c containerName s = Undefined).
Proof.
  assert (Heven : forall render : T -> string, List.length c = 2 * k ->
             @Enabled.PrintContainerToString T render c containerName s
             = Done (s ++ label_prefix containerName " " ++ "size = "
                       ++ show (List.length c) ++ LF
                       ++ "{ " ++ rendered render (every_other c) ++ "}")).
  { intros render Hlen.
    unfold Enabled.PrintContainerToString, Enabled.PrintRangeToString, label_prefix,
      begin_, end_.
    replace (mk_iterator c (List.length c)) with (mk_iterator c (0 + 2 * k))
      by (f_equal; lia).
    destruct containerName as [|ch name]; simpl empty; simpl negb; cbv iota;
      unfold seq, put, endl, write, skip;
      rewrite (@rendered_loop_even T render k c 0) by lia;
      replace (0 + 2 * k) with (List.length c) by lia; rewrite slice_whole;
      now rewrite ?append_assoc, ?append_nil_r. }
  assert (Hodd : forall render : T -> string, List.length c = 2 * k + 1 ->
             @Enabled.PrintContainerToString T render c containerName s = Undefined).
  { intros render Hlen.
    unfold Enabled.PrintContainerToString, Enabled.PrintRangeToString, begin_, end_.
    replace (mk_iterator c (List.length c)) with (mk_iterator c (0 + 2 * k + 1))
      by (f_equal; lia).
    destruct containerName as [|ch name]; simpl empty; simpl negb; cbv iota;
      unfold seq, put, endl, write, skip;
      now rewrite (@rendered_loop_odd T render k c 0) by lia. }
  assert (H2 : Enabled.PrintContainer2String c containerName s
               = @Enabled.PrintContainerToString T toString c containerName s).
  { unfold Enabled.PrintContainer2String, Enabled.PrintContainerToString.
    now rewrite PrintRange2String_eq. }
  split; intros Hlen; (split; [| rewrite H2]); auto.
Qed.

Lemma X4_PrintContainerToString_two_and_three_fields :
  List.length (firstn 2 sample_fields) = 2 * 1
  /\ Enabled.PrintContainerToString (firstn 2 sample_fields) "schema" ""
     = Done ("schema size = 2" ++ LF ++ "{ id: int64 }")
  /\ List.length sample_fields = 2 * 1 + 1
  /\ Enabled.PrintContainerToString sample_fields "schema" "" = Undefined.
Proof.
  assert (H2 : List.length (firstn 2 sample_fields) = 2 * 1) by reflexivity.
  assert (H3 : List.length sample_fields = 2 * 1 + 1) by reflexivity.
  split; [exact H2 | split; [| split; [exact H3 |]]].
  - exact (proj1 (proj1 (X4_PrintContainerToString_by_parity
                           (firstn 2 sample_fields) "schema" 1 "") H2)).
  - exact (proj1 (proj2 (X4_PrintContainerToString_by_parity
                           sample_fields "schema" 1 "") H3)).
Defined.

(** ** Vectors of handles *)

Lemma PrintVectorToString_loop_handles {R} `{HasToString R} (rs : list R) (s : sink) :
  Enabled.PrintVectorToString_loop (map Some rs) s = Done (s ++ spaced ToString rs).
Proof.
  revert s. induction rs as [|r rs IH]; intros s; simpl.
  - unfold skip, spaced. simpl. now rewrite append_nil_r.
  - unfold seq, write. simpl. rewrite IH. unfold spaced. simpl.
    now rewrite !append_assoc.
Qed.

Lemma PrintVectorToString_loop_null {R} `{HasToString R} (c : list (handle R)) (s : sink) :
  In None c -> Enabled.PrintVectorToString_loop c s = Undefined.
Proof.
  revert s. induction c as [|x c IH]; intros s Hin; [destruct Hin|].
  simpl. unfold seq, write. destruct x as [r|]; simpl.
  - apply IH. destruct Hin as [Heq|Hin]; [discriminate | exact Hin].
  - reflexivity.
Qed.

Lemma PrintVector2String_loop_handles {R} `{Has2String R} (rs : list R) (s : sink) :
  Enabled.PrintVector2String_loop (map Some rs) s = Done (s ++ spaced toString rs).
Proof.
  revert s. induction rs as [|r rs IH]; intros s; simpl.
  - unfold skip, spaced. simpl. now rewrite append_nil_r.
  - unfold seq, write. simpl. rewrite IH. unfold spaced. simpl.
    now rewrite !append_assoc.
Qed.

Lemma PrintVector2String_loop_null {R} `{Has2String R} (c : list (handle R)) (s : sink) :
  In None c -> Enabled.PrintVector2String_loop c s = Undefined.
Proof.
  revert s. induction c as [|x c IH]; intros s Hin; [destruct Hin|].
  simpl. unfold seq, write. destruct x as [r|]; simpl.
  - apply IH. destruct Hin as [Heq|Hin]; [discriminate | exact Hin].
  - reflexivity.
Qed.

(** X5.  [PrintVectorToString] and [PrintVector2String] on a vector of
    handles: when no handle is null they add the name, [" = {"], every
    object in order behind one space, then [" }"] and a newline; as soon as
    one handle is null the call has undefined behaviour, wherever the null
    handle stands. *)
Theorem X5_PrintVectorToString_handles {R} `{HasToString R} `{Has2String R}
    (rs : list R) (c : list (handle R)) (containerName : string) (s : sink) :
  Enabled.PrintVectorToString (map Some rs) containerName s
  = Done (s ++ containerName ++ " = {" ++ spaced ToString rs ++ " }" ++ LF)
  /\ Enabled.PrintVector2String (map Some rs) containerName s
     = Done (s ++ containerName ++ " = {" ++ spaced toString rs ++ " }" ++ LF)
  /\ (In None c ->
      Enabled.PrintVectorToString c containerName s = Undefined
      /\ Enabled.PrintVector2String c containerName s = Undefined).
Proof.
  unfold Enabled.PrintVectorToString, Enabled.PrintVector2String.
  split; [| split; [| intros Hin; split]]; unfold seq, endl, write.
  - rewrite PrintVectorToString_loop_handles. now rewrite !append_assoc.
  - rewrite PrintVector2String_loop_handles. now rewrite !append_assoc.
  - now rewrite PrintVectorToString_loop_null.
  - now rewrite PrintVector2String_loop_null.
Qed.

Lemma X5_PrintVectorToString_null_in_the_middle :
  let f := mk_Field "id" "int64" in
  In None [Some f; None; Some f]
  /\ Enabled.PrintVectorToString [Some f; None; Some f] "fields" "" = Undefined
  /\ Enabled.PrintVectorToString (map Some [f; f]) "fields" ""
     = Done ("fields = { id: int64 id: int64 }" ++ LF).
Proof.
  cbv zeta.
  assert (Hin : In None [Some (mk_Field "id" "int64"); None; Some (mk_Field "id" "int64")])
    by (right; left; reflexivity).
  split; [exact Hin | split].
  - exact (proj1 (proj2 (proj2 (X5_PrintVectorToString_handles [] _ "fields" "")) Hin)).
  - exact (proj1 (X5_PrintVectorToString_handles
                    [mk_Field "id" "int64"; mk_Field "id" "int64"] [] "fields" "")).
Defined.

(** ** The loop of [PrintVectorMapping] *)

Lemma PrintVectorMapping_loop_stop {T} `{Printable T} (v : list T) (i : nat) :
  (i <? List.length v)%nat = false -> Enabled.PrintVectorMapping_loop v i = skip.
Proof. intros Hi. funelim (Enabled.PrintVectorMapping_loop v i); loop_clause. Qed.

Lemma PrintVectorMapping_loop_step {T} `{Printable T} (v : list T) (i : nat) (x : T) :
  (i <? List.length v)%nat = true -> nth_error v i = Some x ->
  Enabled.PrintVectorMapping_loop v i
  = (Enabled.Print TAB ;; Enabled.PrintSplitLF i x " -> " ;;
     Enabled.PrintVectorMapping_loop v (S i)).
Proof. intros Hi Hx. funelim (Enabled.PrintVectorMapping_loop v i); loop_clause. Qed.

Lemma PrintVectorMapping_loop_from {T} `{Printable T} (n : nat) :
  forall (v : list T) (i : nat) (s : sink),
  List.length v - i = n ->
  Enabled.PrintVectorMapping_loop v i s = Done (s ++ mapping_lines i (skipn i v)).
Proof.
  induction n as [|n IH]; intros v i s Hn.
  - rewrite PrintVectorMapping_loop_stop by (apply Nat.ltb_ge; lia).
    rewrite skipn_all2 by lia. unfold skip. simpl. now rewrite append_nil_r.
  - destruct (nth_error_in_range v i) as [x Hx]; [lia|].
    rewrite (PrintVectorMapping_loop_step v i x) by (assumption || (apply Nat.ltb_lt; lia)).
    unfold seq, Enabled.Print, Enabled.PrintSplitLF, seq, put, endl, write.
    rewrite IH by lia.
    rewrite (skipn_nth_error v i x Hx). simpl.
    unfold show at 1. unfold Printable_string. now rewrite !append_assoc.
Qed.

(** X6.  [PrintVectorMapping] always returns, on every vector: every index
    it reads is below [v.size()].  It adds the name, a newline, ["{"] and a
    newline, then for every index [i] from 0 in order the line made of a
    tab, [i], [" -> "], [v[i]] and a newline, then ["}"] and a newline; the
    empty vector gives the name followed by an empty pair of braces on
    lines of their own. *)
Theorem X6_PrintVectorMapping_output {T} `{Printable T}
    (v : list T) (vectorName : string) (s : sink) :
  Enabled.PrintVectorMapping v vectorName s
  = Done (s ++ vectorName ++ LF ++ "{" ++ LF ++ mapping_lines 0 v ++ "}" ++ LF)
  /\ Enabled.PrintVectorMapping (@nil T) vectorName s
     = Done (s ++ vectorName ++ LF ++ "{" ++ LF ++ "}" ++ LF).
Proof.
  assert (Hall : forall l : list T,
             Enabled.PrintVectorMapping l vectorName s
             = Done (s ++ vectorName ++ LF ++ "{" ++ LF ++ mapping_lines 0 l ++ "}" ++ LF)).
  { intros l. unfold Enabled.PrintVectorMapping, seq, endl, write.
    rewrite (PrintVectorMapping_loop_from (List.length l) l 0) by lia.
    simpl skipn. now rewrite !append_assoc. }
  split; [apply Hall | now rewrite Hall].
Qed.

(** ** [PrintVectorRange] outside its precondition *)

Lemma PrintElement_returns {T} `{Printable T} (e : T) (first : bool) (s : sink) :
  exists s', Enabled.PrintElement e first s = Done s'.
Proof.
  destruct first; [exists (s ++ show e) | exists (s ++ ", " ++ show e)].
  - apply PrintElement_first.
  - apply PrintElement_later.
Qed.

Lemma PrintVectorRange_loop_never {T} `{Printable T} (n : nat) :
  forall (v : list T) (from to index : uint) (s : sink),
  (Z.of_nat (List.length v) < 2 ^ 32)%Z ->
  List.length v - Z.to_nat (word.unsigned index) <= n ->
  word.unsigned index <> word.unsigned to ->
  (word.unsigned to < word.unsigned index)%Z
  \/ (Z.of_nat (List.length v) < word.unsigned to)%Z ->
  Enabled.PrintVectorRange_loop v from to index s = Undefined.
Proof.
  induction n as [|n IH]; intros v from to index s Hsize Hn Hne Hend;
    pose proof (word.unsigned_range index) as Hi;
    destruct (at_index v index) as [e|] eqn:He;
    try (rewrite PrintVectorRange_loop_out_of_bounds;
         [reflexivity | now apply uint_eqb_false | exact He]).
  - assert (Z.to_nat (word.unsigned index) < List.length v)
      by (apply nth_error_Some; unfold at_index in He; congruence).
    lia.
  - assert (Hin : Z.to_nat (word.unsigned index) < List.length v)
      by (apply nth_error_Some; unfold at_index in He; congruence).
    rewrite (PrintVectorRange_loop_step v from to index e);
      [| now apply uint_eqb_false | exact He].
    unfold seq.
    destruct (PrintElement_returns e (word.eqb index from) s) as [s' ->].
    assert (Hnext : word.unsigned (uint_incr index) = (word.unsigned index + 1)%Z).
    { unfold uint_incr.
      rewrite word.unsigned_add_nowrap; rewrite word.unsigned_of_Z_1; lia. }
    apply IH; rewrite ?Hnext; lia.
Qed.

(** X7.  On a vector of fewer than 2^32 elements, [PrintVectorRange] with
    [to] below [from], or with [from] below [to] and [to] beyond
    [v.size()], never meets [index == end]: the index walks up to
    [v.size()] and the vector is read out of bounds.  Nothing checks the
    indices; the call has undefined behaviour. *)
Theorem X7_PrintVectorRange_out_of_range {T} `{Printable T}
    (v : list T) (from to : uint) (s : sink) :
  (Z.of_nat (List.length v) < 2 ^ 32)%Z ->
  (word.unsigned to < word.unsigned from)%Z
  \/ (word.unsigned from < word.unsigned to
      /\ Z.of_nat (List.length v) < word.unsigned to)%Z ->
  Enabled.PrintVectorRange v from to s = Undefined.
Proof.
  intros Hsize Hend. unfold Enabled.PrintVectorRange, seq, write.
  rewrite (PrintVectorRange_loop_never (List.length v)); [reflexivity | | | |]; lia.
Qed.

Lemma X7_PrintVectorRange_3_to_1_and_2_to_9 :
  (Z.of_nat (List.length [5; 6; 7; 8]%Z) < 2 ^ 32)%Z
  /\ Enabled.PrintVectorRange [5; 6; 7; 8]%Z (word.of_Z 3) (word.of_Z 1) "" = Undefined
  /\ Enabled.PrintVectorRange [5; 6; 7; 8]%Z (word.of_Z 2) (word.of_Z 9) "" = Undefined.
Proof.
  assert (Hsize : (Z.of_nat (List.length [5; 6; 7; 8]%Z) < 2 ^ 32)%Z) by reflexivity.
  split; [exact Hsize | split].
  - apply (X7_PrintVectorRange_out_of_range [5; 6; 7; 8]%Z (word.of_Z 3) (word.of_Z 1) ""
             Hsize).
    left. reflexivity.
  - apply (X7_PrintVectorRange_out_of_range [5; 6; 7; 8]%Z (word.of_Z 2) (word.of_Z 9) ""
             Hsize).
    right. split; reflexivity.
Defined.

(** X8.  The rendered-range printers with [end] before [begin], or beyond
    the end of the container, never meet [end] either: whatever the
    distance between the two iterators, the call has undefined behaviour. *)
Theorem X8_rendered_range_unreachable_end {T} `{HasToString T} `{Has2String T}
    (c : list T) (b e : nat) (s : sink) :
  b <> e -> e < b \/ List.length c < e ->
  Enabled.PrintRangeToString (mk_iterator c b) (mk_iterator c e) s = Undefined
  /\ Enabled.PrintRange2String (mk_iterator c b) (mk_iterator c e) s = Undefined.
Proof.
  intros Hne Hend.
  assert (Hnever : forall render : T -> string,
             @Enabled.PrintRangeToString T render (mk_iterator c b) (mk_iterator c e) s
             = Undefined).
  { intros render. unfold Enabled.PrintRangeToString, seq, write.
    now rewrite (@rendered_loop_never T render (List.length c)) by (assumption || lia). }
  split; [apply Hnever | rewrite PrintRange2String_eq; apply Hnever].
Qed.

Lemma X8_rendered_range_reversed :
  2 <> 0 /\ (0 < 2 \/ List.length sample_fields < 0)
  /\ Enabled.PrintRangeToString (mk_iterator sample_fields 2)
       (mk_iterator sample_fields 0) "" = Undefined.
Proof.
  assert (Hne : 2 <> 0) by lia.
  assert (Hend : 0 < 2 \/ List.length sample_fields < 0) by (left; lia).
  split; [exact Hne | split; [exact Hend |]].
  exact (proj1 (X8_rendered_range_unreachable_end sample_fields 2 0 "" Hne Hend)).
Defined.

(** ** Labels and separators *)

Lemma seq_write (x : string) (p : stmt) (s : sink) : (write x ;; p) s = p (s ++ x).
Proof. reflexivity. Qed.

Lemma seq_skip (p : stmt) (s : sink) : (skip ;; p) s = p s.
Proof. reflexivity. Qed.

Lemma seq_assoc (p q r : stmt) (s : sink) : ((p ;; q) ;; r) s = (p ;; q ;; r) s.
Proof. unfold seq. now destruct (p s). Qed.

(** X9.  The label of a labelled printer only goes in front: with a label
    that is not empty, [PrintContainer], [PrintContainerToString] and
    [PrintContainer2String] behave as without a label on the sink to which
    the label and one space have been added, and [Print2String] as without
    a prefix on the sink to which the prefix and [": "] have been added;
    this includes the calls whose behaviour is undefined. *)
Theorem X9_label_goes_in_front {A} `{Printable A} {T} `{HasToString T} `{Has2String T}
    (c : list A) (r : list T) (t : T) (name : string) (s : sink) :
  name <> "" ->
  Enabled.PrintContainer c name s = Enabled.PrintContainer c "" (s ++ name ++ " ")
  /\ Enabled.PrintContainerToString r name s
     = Enabled.PrintContainerToString r "" (s ++ name ++ " ")
  /\ Enabled.PrintContainer2String r name s
     = Enabled.PrintContainer2String r "" (s ++ name ++ " ")
  /\ Enabled.Print2String t name s = Enabled.Print2String t "" (s ++ name ++ ": ").
Proof.
  intros Hname. destruct name as [|ch name]; [congruence|].
  unfold Enabled.PrintContainer, Enabled.PrintContainerToString,
    Enabled.PrintContainer2String, Enabled.Print2String.
  simpl empty. simpl negb. cbv iota.
  repeat split; rewrite seq_assoc, !seq_write, seq_skip, ?seq_write;
    now rewrite !append_assoc.
Qed.

Lemma X9_label_goes_in_front_batch :
  "batch" <> ""
  /\ Enabled.PrintContainer [7; 8]%Z "batch" "" = Enabled.PrintContainer [7; 8]%Z "" "batch "
  /\ Enabled.PrintContainer [7; 8]%Z "batch" "" = Done ("batch size = 2 { 7 8 }" ++ LF).
Proof.
  assert (Hname : "batch" <> "") by discriminate.
  split; [exact Hname | split].
  - exact (proj1 (X9_label_goes_in_front [7; 8]%Z (@nil Field) (mk_Field "id" "int64")
                    "batch" "" Hname)).
  - reflexivity.
Defined.

(** X10.  Every [...LF] printer writes what its counterpart without [LF]
    writes, followed by one newline: [PrintLF] after [Print], the
    two-argument [PrintLF] after the two-argument [Print], [PrintSplitLF]
    after [PrintSplit] with the same separator, [PrintEQLF] after
    [PrintEQ], [PrintVSLF] after [PrintVS] and the macro [PRINTLF] after
    [PRINT]; and [PrintSplit] writes the two values with the separator
    between them and nothing else. *)
Theorem X10_line_variants {A B} `{Printable A} `{Printable B}
    (a : A) (b : B) (split text : string) (s : sink) :
  Enabled.PrintSplit a b split s = Done (s ++ show a ++ split ++ show b)
  /\ Enabled.PrintLF a s = (Enabled.Print a ;; endl) s
  /\ Enabled.PrintLF2 a b s = (Enabled.Print2 a b ;; endl) s
  /\ Enabled.PrintSplitLF a b split s = (Enabled.PrintSplit a b split ;; endl) s
  /\ Enabled.PrintEQLF a b s = (Enabled.PrintEQ a b ;; endl) s
  /\ Enabled.PrintVSLF a b s = (Enabled.PrintVS a b ;; endl) s
  /\ Enabled.PRINTLF text a s = (Enabled.PRINT text a ;; endl) s
  /\ Enabled.PRINTLF text a s = Done (s ++ text ++ ": " ++ show a ++ LF).
Proof.
  unfold Enabled.PRINTLF, Enabled.PRINT, Enabled.PrintLF, Enabled.Print,
    Enabled.PrintLF2, Enabled.Print2, Enabled.PrintSplitLF, Enabled.PrintSplit,
    Enabled.PrintEQLF, Enabled.PrintEQ, Enabled.PrintVSLF, Enabled.PrintVS.
  repeat split; rewrite ?seq_assoc; try reflexivity;
    unfold seq, put, endl, write; unfold show at 1, Printable_string;
    now rewrite !append_assoc.
Qed.

(** X11.  [PrintVectorRange] with [from] equal to [to] reads no element: it
    returns with ["{}"] and a newline for every index, also one beyond
    [v.size()]. *)
Theorem X11_PrintVectorRange_empty_range {T} `{Printable T}
    (v : list T) (index : uint) (s : sink) :
  Enabled.PrintVectorRange v index index s = Done (s ++ "{}" ++ LF).
Proof.
  unfold Enabled.PrintVectorRange.
  rewrite PrintVectorRange_loop_stop by now apply uint_eqb_true.
  unfold seq, endl, write, skip. now rewrite !append_assoc.
Qed.
